(** * Atheron-AI: the space-data clients and the chat route's context layer

    A shallow embedding of [src/lib/space-apis.ts] (the provider clients)
    and of the chat route ([getSpaceContext], [ATHEY_SYSTEM_PROMPT],
    [POST]), together with the parts of the JavaScript runtime that the
    code calls: [Number.prototype.toFixed], number-to-string conversion,
    [Date.prototype.toISOString], [Array.prototype.slice], [Promise.all].

    - Numbers are IEEE-754 binary64 values (Rocq's primitive floats), as
      in JavaScript.  Strings are byte strings holding the UTF-8 encoding
      of the source text.
    - Asynchronous functions are computations over a read-only world (the
      environment variables, the network, the host's locale) and a state
      (a clock, the console, the requests sent) that either complete with
      a value or throw.
    - A reply of the network is a failure, or a status with a body; a
      body is either not JSON or a document of the type that the code
      declares for it.
    - The messages of a chat request and their conversion for the
      engine ([convertToModelMessages]) belong to the engine's library:
      the route is modelled for every such conversion, which returns the
      converted messages or throws.
    - Time is logical: a computation advances the clock only while it
      waits for a reply. *)

From Stdlib Require Import ZArith NArith String Ascii List Floats Lia.
From stdpp Require Import base strings gmap list.

Set Warnings "-inexact-float".

Local Open Scope string_scope.
Local Open Scope Z_scope.

(** ** The JavaScript runtime, as far as the code uses it *)

Module JS.

(** Errors that can be thrown (and caught) in the modelled code. *)
Inductive Error : Type :=
  | GenericError (message : string)   (* [new Error(message)] *)
  | TypeError (message : string)
  | RangeError (message : string)
  | SyntaxError (message : string).

(** *** Decimal digits *)

Definition digit (d : N) : ascii := ascii_of_N (48 + d).

Definition is_digit (c : ascii) : bool :=
  let n := N_of_ascii c in ((48 <=? n) && (n <=? 57))%N.

Fixpoint digits_aux (fuel : nat) (n : N) : string :=
  match fuel with
  | O => EmptyString
  | S fuel' =>
      if (n <? 10)%N then String (digit n) EmptyString
      else digits_aux fuel' (n / 10) +:+ String (digit (n mod 10)) EmptyString
  end.

(** The decimal representation of a natural number, without leading
    zeros ("0" for zero). *)
Definition decimal (n : N) : string :=
  digits_aux (S (N.to_nat (N.log2 n))) n.

(** The last [w] decimal digits of [n], padded with zeros on the left. *)
Fixpoint fixed_width (w : nat) (n : N) : string :=
  match w with
  | O => EmptyString
  | S w' => fixed_width w' (n / 10) +:+ String (digit (n mod 10)) EmptyString
  end.

Fixpoint zeros (k : nat) : string :=
  match k with
  | O => EmptyString
  | S k' => String "0" (zeros k')
  end.

Fixpoint all_digits (s : string) : bool :=
  match s with
  | EmptyString => true
  | String c s' => is_digit c && all_digits s'
  end.

(** *** ToIntegerOrInfinity *)

Inductive IntegerOrInfinity : Type :=
  | NegInfinity
  | Integer (z : Z)
  | PosInfinity.

(** The integer part (towards zero) of [m * 2^e]. *)
Definition truncate (m : positive) (e : Z) : Z :=
  if 0 <=? e then Z.pos m * 2 ^ e else Z.pos m / 2 ^ (- e).

Definition ToIntegerOrInfinity (x : float) : IntegerOrInfinity :=
  match Prim2SF x with
  | S754_nan => Integer 0
  | S754_zero _ => Integer 0
  | S754_infinity false => PosInfinity
  | S754_infinity true => NegInfinity
  | S754_finite sgn m e =>
      Integer (if sgn then - truncate m e else truncate m e)
  end.

(** *** Exact comparison of [a * 10^p] with [b * 2^e] *)

Definition compare_dec_bin (a p b e : Z) : comparison :=
  let lhs := a * 10 ^ Z.max p 0 * 2 ^ Z.max (- e) 0 in
  let rhs := b * 2 ^ Z.max e 0 * 10 ^ Z.max (- p) 0 in
  lhs ?= rhs.

(** [floor (m * 2^e / 10^p)]. *)
Definition floor_div_pow10 (m e p : Z) : Z :=
  (m * 2 ^ Z.max e 0 * 10 ^ Z.max (- p) 0)
  / (10 ^ Z.max p 0 * 2 ^ Z.max (- e) 0).

(** The largest [L] with [10^L <= m * 2^e]. *)
Definition floor_log10 (m e : Z) : Z :=
  let b := Z.log2 m + e in
  let l0 := (b * 30103) / 100000 in
  let fits l := match compare_dec_bin 1 l m e with Gt => false | _ => true end in
  if fits (l0 + 1) then l0 + 1
  else if fits l0 then l0
  else if fits (l0 - 1) then l0 - 1
  else l0 - 2.

(** *** Number::toString (radix 10)

    The shortest decimal digit string that reads back as the same
    binary64 value; where two candidates of that length exist, the one
    closer to the value. *)

(** Does the decimal [c * 10^p] round to the binary64 value [m * 2^e]?
    The rounding interval is [m*2^e - gap_below/2, m*2^e + 2^e/2], closed
    exactly when the mantissa is even. *)
Definition rounds_to (m e c p : Z) : bool :=
  let below := if (m =? 2 ^ 52) && (-1074 <? e) then 1 else 2 in
  let lo := compare_dec_bin c p (4 * m - below) (e - 2) in
  let hi := compare_dec_bin c p (4 * m + 2) (e - 2) in
  match lo, hi with
  | Gt, Lt => true
  | Eq, _ | _, Eq => Z.even m
  | _, _ => false
  end.

Fixpoint shortest_aux (fuel : nat) (m e l k : Z) : Z * Z :=
  let p := l - k + 1 in
  let lo := floor_div_pow10 m e p in
  let hi := lo + 1 in
  match fuel with
  | O => (lo, p)
  | S fuel' =>
      match rounds_to m e lo p, rounds_to m e hi p with
      | true, false => (lo, p)
      | false, true => (hi, p)
      | true, true =>
          match compare_dec_bin (2 * lo + 1) p (2 * m) e with
          | Gt => (lo, p)
          | Lt => (hi, p)
          | Eq => if Z.even lo then (lo, p) else (hi, p)
          end
      | false, false => shortest_aux fuel' m e l (k + 1)
      end
  end.

Fixpoint strip_zeros_aux (fuel : nat) (c p : Z) : Z * Z :=
  match fuel with
  | O => (c, p)
  | S fuel' =>
      if (c mod 10 =? 0) && (0 <? c) then strip_zeros_aux fuel' (c / 10) (p + 1)
      else (c, p)
  end.

(** The digits [s] and the exponent [n] of the standard: the value is
    [0.s * 10^n]. *)
Definition shortest_digits (m e : Z) : string * Z :=
  let '(c, p) := shortest_aux 17 m e (floor_log10 m e) 1 in
  let '(c', p') := strip_zeros_aux 20 c p in
  let ds := decimal (Z.to_N c') in
  (ds, p' + Z.of_nat (String.length ds)).

Definition string_take (n : nat) (s : string) : string := String.substring 0 n s.
Definition string_drop (n : nat) (s : string) : string :=
  String.substring n (String.length s - n) s.

Definition format_digits (ds : string) (n : Z) : string :=
  let k := Z.of_nat (String.length ds) in
  if (k <=? n) && (n <=? 21) then
    ds +:+ zeros (Z.to_nat (n - k))
  else if (0 <? n) && (n <=? 21) then
    string_take (Z.to_nat n) ds +:+ "." +:+ string_drop (Z.to_nat n) ds
  else if (-6 <? n) && (n <=? 0) then
    "0." +:+ zeros (Z.to_nat (- n)) +:+ ds
  else
    let ex := n - 1 in
    let sign := if ex <? 0 then "-" else "+" in
    let mant :=
      if k =? 1 then ds
      else string_take 1 ds +:+ "." +:+ string_drop 1 ds in
    mant +:+ "e" +:+ sign +:+ decimal (Z.to_N (Z.abs ex)).

Definition positive_toString (m : positive) (e : Z) : string :=
  let '(ds, n) := shortest_digits (Z.pos m) e in format_digits ds n.

Definition Number_toString (x : float) : string :=
  match Prim2SF x with
  | S754_nan => "NaN"
  | S754_zero _ => "0"
  | S754_infinity false => "Infinity"
  | S754_infinity true => "-Infinity"
  | S754_finite sgn m e =>
      (if sgn then "-" else EmptyString) +:+ positive_toString m e
  end.

(** *** Number.prototype.toFixed *)

(** The integer [n] for which [n / 10^f] is closest to [m * 2^e], the
    larger one on a tie. *)
Definition round_scaled (m : positive) (e : Z) (f : nat) : Z :=
  let scaled := Z.pos m * 10 ^ Z.of_nat f in
  if 0 <=? e then scaled * 2 ^ e
  else (2 * scaled + 2 ^ (- e)) / 2 ^ (- e + 1).

Definition fixed_notation (n : Z) (f : nat) : string :=
  let unit := 10 ^ Z.of_nat f in
  decimal (Z.to_N (n / unit)) +:+
  match f with
  | O => EmptyString
  | S _ => "." +:+ fixed_width f (Z.to_N (n mod unit))
  end.

(** [x.toFixed(f)] for [0 <= f <= 100]. *)
Definition toFixed (x : float) (f : nat) : string :=
  match Prim2SF x with
  | S754_nan => "NaN"
  | S754_infinity false => "Infinity"
  | S754_infinity true => "-Infinity"
  | S754_zero _ => fixed_notation 0 f
  | S754_finite sgn m e =>
      (if sgn then "-" else EmptyString) +:+
      match compare_dec_bin 1 21 (Z.pos m) e with
      | Gt => fixed_notation (round_scaled m e f) f
      | _ => positive_toString m e
      end
  end.

(** *** Date *)

Definition msPerDay : Z := 86400000.

(** TimeClip: the time value of [new Date(x)] for a number [x]; [None]
    is the invalid date. *)
Definition TimeClip (x : float) : option Z :=
  match ToIntegerOrInfinity x, Prim2SF x with
  | _, S754_nan => None
  | Integer t, _ => if Z.abs t <=? 8640000000000000 then Some t else None
  | _, _ => None
  end.

Definition DayFromYear (y : Z) : Z :=
  365 * (y - 1970) + (y - 1969) / 4 - (y - 1901) / 100 + (y - 1601) / 400.

Definition YearFromDay (d : Z) : Z :=
  let y0 := 1970 + (d * 400) / 146097 in
  if DayFromYear (y0 + 1) <=? d then y0 + 1
  else if DayFromYear y0 <=? d then y0
  else y0 - 1.

Definition InLeapYear (y : Z) : bool :=
  ((y mod 4 =? 0) && negb (y mod 100 =? 0)) || (y mod 400 =? 0).

(** Month (0-based) and day of the month (1-based) of the day [dy] within
    a year. *)
Definition MonthAndDate (dy : Z) (leap : bool) : Z * Z :=
  let l := if leap then 1 else 0 in
  if dy <? 31 then (0, dy + 1)
  else if dy <? 59 + l then (1, dy - 30)
  else if dy <? 90 + l then (2, dy - 58 - l)
  else if dy <? 120 + l then (3, dy - 89 - l)
  else if dy <? 151 + l then (4, dy - 119 - l)
  else if dy <? 181 + l then (5, dy - 150 - l)
  else if dy <? 212 + l then (6, dy - 180 - l)
  else if dy <? 243 + l then (7, dy - 211 - l)
  else if dy <? 273 + l then (8, dy - 242 - l)
  else if dy <? 304 + l then (9, dy - 272 - l)
  else if dy <? 334 + l then (10, dy - 303 - l)
  else (11, dy - 333 - l).

Definition pad (w : nat) (z : Z) : string := fixed_width w (Z.to_N z).

Definition year_string (y : Z) : string :=
  if (0 <=? y) && (y <=? 9999) then pad 4 y
  else (if y <? 0 then "-" else "+") +:+ pad 6 (Z.abs y).

(** The ISO-8601 rendering of a valid time value. *)
Definition iso_string (t : Z) : string :=
  let day := t / msPerDay in
  let ms := t mod msPerDay in
  let y := YearFromDay day in
  let '(mo, dt) := MonthAndDate (day - DayFromYear y) (InLeapYear y) in
  year_string y +:+ "-" +:+ pad 2 (mo + 1) +:+ "-" +:+ pad 2 dt +:+ "T" +:+
  pad 2 (ms / 3600000) +:+ ":" +:+ pad 2 ((ms / 60000) mod 60) +:+ ":" +:+
  pad 2 ((ms / 1000) mod 60) +:+ "." +:+ pad 3 (ms mod 1000) +:+ "Z".

(** [date.toISOString()]: throws a RangeError on the invalid date. *)
Definition toISOString (tv : option Z) : Error + string :=
  match tv with
  | None => inl (RangeError "Invalid time value")
  | Some t => inr (iso_string t)
  end.

(** *** Array.prototype.slice *)

Definition relative_index (len : Z) (i : IntegerOrInfinity) : Z :=
  match i with
  | NegInfinity => 0
  | Integer z => if z <? 0 then Z.max (len + z) 0 else Z.min z len
  | PosInfinity => len
  end.

(** [l.slice(start, end)]; [None] for [end] is the omitted argument. *)
Definition Array_slice {A : Type} (l : list A)
    (start : IntegerOrInfinity) (end_ : option IntegerOrInfinity) : list A :=
  let len := Z.of_nat (length l) in
  let k := relative_index len start in
  let final := match end_ with
               | None => len
               | Some e => relative_index len e
               end in
  take (Z.to_nat (final - k)) (drop (Z.to_nat k) l).

End JS.

(** ** Data model ([src/lib/space-apis.ts], "Types") *)

Record SatellitePosition : Type := {
  satid : float;
  satname : string;
  satlatitude : float;
  satlongitude : float;
  sataltitude : float;
  azimuth : float;
  elevation : float;
  timestamp : float;
}.

Record SatelliteInfo : Type := {
  info_satid : float;
  info_satname : string;
  transactionscount : float;
}.

Record SatelliteAbove : Type := {
  above_satid : float;
  above_satname : string;
  intDesignator : string;
  launchDate : string;
  satlat : float;
  satlng : float;
  satalt : float;
}.

Record Patch : Type := { small : option string; large : option string }.

Record Links : Type := {
  patch : Patch;
  webcast : option string;
  wikipedia : option string;
  article : option string;
}.

Record SpaceXLaunch : Type := {
  launch_id : string;
  name : string;
  date_utc : string;
  date_local : string;
  success : option bool;
  upcoming : bool;
  details : option string;
  links : Links;
  rocket : string;
  flight_number : float;
}.

Record Measure : Type := { metric : float; imperial : float }.

Record SpaceXRocket : Type := {
  rocket_id : string;
  rocket_name : string;
  rocket_type : string;
  active : bool;
  stages : float;
  boosters : float;
  cost_per_launch : float;
  success_rate_pct : float;
  first_flight : string;
  country : string;
  company : string;
  description : string;
  height : Measure;
  diameter : Measure;
  mass : Measure;
}.

Record ISROSpacecraft : Type := { spacecraft_id : string; spacecraft_name : string }.

Record ISROLaunchVehicle : Type := { vehicle_id : float; vehicle_name : string }.

Record ISROCentre : Type := {
  centre_id : float;
  centre_name : string;
  Place : string;
  State : string;
}.

Record NasaAPOD : Type := {
  title : string;
  explanation : string;
  url : string;
  hdurl : option string;
  media_type : string;
  date : string;
  copyright : option string;
}.

(** The documents the services answer with.  A document that parses is
    taken at the type the code declares for it; the members that the code
    guards with [?.] or [||] may be missing. *)

Record PositionsResponse : Type := {
  info : SatelliteInfo;
  positions : option (list SatellitePosition);
}.

Record AboveInfo : Type := { category : string; satcount : float }.

Record AboveResponse : Type := {
  above_info : AboveInfo;
  above : list SatelliteAbove;
}.

Record SpacecraftsResponse : Type := { spacecrafts : option (list ISROSpacecraft) }.
Record LaunchersResponse : Type := { launchers : option (list ISROLaunchVehicle) }.
Record CentresResponse : Type := { centres : option (list ISROCentre) }.

Inductive Endpoint : Type :=
  | PositionsApi | AboveApi
  | LaunchApi | LaunchesApi | RocketsApi
  | SpacecraftsApi | LaunchersApi | CentresApi
  | ApodApi.

Definition Payload (k : Endpoint) : Type :=
  match k with
  | PositionsApi => PositionsResponse
  | AboveApi => AboveResponse
  | LaunchApi => SpaceXLaunch
  | LaunchesApi => list SpaceXLaunch
  | RocketsApi => list SpaceXRocket
  | SpacecraftsApi => SpacecraftsResponse
  | LaunchersApi => LaunchersResponse
  | CentresApi => CentresResponse
  | ApodApi => NasaAPOD
  end.

(** ** The world outside the program *)

(** The body of an HTTP message: text that is not JSON, or a document.
    For text that is not JSON, [reason] is the message of the SyntaxError
    with which the runtime's parser refuses it; it depends on the text
    and on the runtime. *)
Inductive Body (T : Type) : Type :=
  | Malformed (reason : string)
  | Json (v : T).
Arguments Malformed {T} reason.
Arguments Json {T} v.

(** What happens to one request. *)
Inductive Outcome (T : Type) : Type :=
  | NetworkFailure
  | HttpResponse (status : N) (body : Body T).
Arguments NetworkFailure {T}.
Arguments HttpResponse {T} status body.

(** A request is answered (or fails) [latency] milliseconds after it was
    sent. *)
Record Reply (T : Type) : Type := {
  latency : N;
  outcome : Outcome T;
}.
Arguments latency {T} r.
Arguments outcome {T} r.

Record World : Type := {
  process_env : gmap string string;
  network : forall k : Endpoint, string -> Reply (Payload k);
  (** [new Date(s).toLocaleDateString()] on this host (its locale and
      time zone decide the rendering). *)
  toLocaleDateString : string -> string;
}.

(** A line written by [console.error(message, detail)]. *)
Record LogEntry : Type := {
  logged_at : N;
  message : string;
  detail : option JS.Error;
}.

(** What a run leaves behind: the instant reached (milliseconds of
    logical time; only waiting for the network takes time), the console
    and the URLs requested, oldest first. *)
Record Effects : Type := {
  clock : N;
  console : list LogEntry;
  requests : list string;
}.

(** ** Computations: state, and exceptions (promise rejections) *)

Inductive Completion (A : Type) : Type :=
  | Normal (a : A)
  | Throw (e : JS.Error).
Arguments Normal {A} a.
Arguments Throw {A} e.

Definition M (A : Type) : Type := World -> Effects -> Completion A * Effects.

Definition ret {A : Type} (a : A) : M A := fun _ s => (Normal a, s).

Definition bind {A B : Type} (m : M A) (f : A -> M B) : M B :=
  fun w s =>
    match m w s with
    | (Normal a, s') => f a w s'
    | (Throw e, s') => (Throw e, s')
    end.

Declare Scope js_scope.
Delimit Scope js_scope with js.
Notation "'let*' x ':=' m 'in' k" := (bind m (fun x => k))
  (at level 10, x pattern, m at level 100, k at level 200) : js_scope.
Notation "m ';;' k" := (bind m (fun _ => k))
  (at level 100, k at level 200, right associativity) : js_scope.
Local Open Scope js_scope.

Definition throw {A : Type} (e : JS.Error) : M A := fun _ s => (Throw e, s).

(** [try { body } catch (error) { handler error }] *)
Definition try_catch {A : Type} (body : M A) (handler : JS.Error -> M A) : M A :=
  fun w s =>
    match body w s with
    | (Normal a, s') => (Normal a, s')
    | (Throw e, s') => handler e w s'
    end.

Definition lift {A : Type} (r : JS.Error + A) : M A :=
  match r with
  | inl e => throw e
  | inr a => ret a
  end.

Definition console_error (msg : string) (err : option JS.Error) : M unit :=
  fun _ s =>
    (Normal tt,
     {| clock := clock s;
        console := console s ++ [{| logged_at := clock s; message := msg; detail := err |}];
        requests := requests s |}).

Definition getenv (key : string) : M (option string) :=
  fun w s => (Normal (process_env w !! key), s).

Definition Date_toLocaleDateString (d : string) : M string :=
  fun w s => (Normal (toLocaleDateString w d), s).

(** *** fetch *)

Record Response (T : Type) : Type := {
  status : N;
  body : Body T;
}.
Arguments status {T} r.
Arguments body {T} r.

Definition ok {T : Type} (r : Response T) : bool :=
  ((200 <=? status r) && (status r <=? 299))%N.

(** [await fetch(url)]: the request is recorded at once; the promise
    settles [latency] later, rejected when the network fails. *)
Definition fetch (k : Endpoint) (url : string) : M (Response (Payload k)) :=
  fun w s =>
    let r := network w k url in
    let s' := {| clock := (clock s + latency r)%N;
                 console := console s;
                 requests := requests s ++ [url] |} in
    match outcome r with
    | NetworkFailure => (Throw (JS.TypeError "fetch failed"), s')
    | HttpResponse st b => (Normal {| status := st; body := b |}, s')
    end.

(** Reading a body as JSON: a rejection with a SyntaxError when it is
    not JSON. *)
Definition parse {T : Type} (b : Body T) : M T :=
  match b with
  | Malformed reason => throw (JS.SyntaxError reason)
  | Json v => ret v
  end.

(** [await response.json()] *)
Definition json {T : Type} (r : Response T) : M T := parse (body r).

(** *** Truthiness and template literals of [string | undefined] *)

Definition truthy (v : option string) : bool :=
  match v with
  | Some (String _ _) => true
  | _ => false
  end.

Definition template (v : option string) : string :=
  match v with
  | Some s => s
  | None => "undefined"
  end.

(** [v || d] *)
Definition or_else (v : option string) (d : string) : string :=
  if truthy v then template v else d.

(** ** The provider clients ([src/lib/space-apis.ts]) *)

Definition LF : string := String (ascii_of_nat 10) EmptyString.

Definition status_text {T : Type} (r : Response T) : string := JS.decimal (status r).

(** *** N2YO Satellite API *)

Definition N2YO_BASE_URL : string := "https://api.n2yo.com/rest/v1/satellite".

(** The two request URLs of this service (the template literals of the
    source). *)
Definition positions_url (noradId lat lng alt seconds : float)
    (apiKey : option string) : string :=
  N2YO_BASE_URL +:+ "/positions/" +:+ JS.Number_toString noradId +:+
  "/" +:+ JS.Number_toString lat +:+ "/" +:+ JS.Number_toString lng +:+
  "/" +:+ JS.Number_toString alt +:+ "/" +:+ JS.Number_toString seconds +:+
  "&apiKey=" +:+ template apiKey.

Definition above_url (lat lng searchRadius categoryId : float)
    (apiKey : option string) : string :=
  N2YO_BASE_URL +:+ "/above/" +:+ JS.Number_toString lat +:+
  "/" +:+ JS.Number_toString lng +:+ "/0/" +:+
  JS.Number_toString searchRadius +:+ "/" +:+
  JS.Number_toString categoryId +:+ "&apiKey=" +:+ template apiKey.

Definition getSatellitePosition (noradId : float) (seconds : option float)
  : M (option PositionsResponse) :=
  let seconds := default 1%float seconds in
  let* apiKey := getenv "N2YO_API_KEY" in
  if negb (truthy apiKey) then
    console_error "N2YO_API_KEY not set" None ;;
    ret None
  else
    try_catch
      (let lat := 0%float in
       let lng := 0%float in
       let alt := 0%float in
       let url := positions_url noradId lat lng alt seconds apiKey in
       let* response := fetch PositionsApi url in
       if negb (ok response) then
         throw (JS.GenericError ("N2YO API error: " +:+ status_text response))
       else
         let* doc := json response in
         ret (Some doc))
      (fun error =>
         console_error "Error fetching satellite position:" (Some error) ;;
         ret None).

Definition getSatellitesAbove (lat lng searchRadius categoryId : option float)
  : M (option AboveResponse) :=
  let lat := default 28.6139%float lat in
  let lng := default 77.209%float lng in
  let searchRadius := default 70%float searchRadius in
  let categoryId := default 0%float categoryId in
  let* apiKey := getenv "N2YO_API_KEY" in
  if negb (truthy apiKey) then
    console_error "N2YO_API_KEY not set" None ;;
    ret None
  else
    try_catch
      (let url := above_url lat lng searchRadius categoryId apiKey in
       let* response := fetch AboveApi url in
       if negb (ok response) then
         throw (JS.GenericError ("N2YO API error: " +:+ status_text response))
       else
         let* doc := json response in
         ret (Some doc))
      (fun error =>
         console_error "Error fetching satellites above:" (Some error) ;;
         ret None).

Definition ISS_NORAD_ID : float := 25544%float.

(** [result?.positions?.[0] || null] *)
Definition first_position (result : option PositionsResponse)
  : option SatellitePosition :=
  match result with
  | Some r =>
      match positions r with
      | Some (p :: _) => Some p
      | _ => None
      end
  | None => None
  end.

Definition getISSPosition : M (option SatellitePosition) :=
  let* result := getSatellitePosition ISS_NORAD_ID None in
  ret (first_position result).

(** *** SpaceX API *)

Definition SPACEX_BASE_URL : string := "https://api.spacexdata.com/v4".

Definition getLatestSpaceXLaunch : M (option SpaceXLaunch) :=
  try_catch
    (let* response := fetch LaunchApi (SPACEX_BASE_URL +:+ "/launches/latest") in
     if negb (ok response) then
       throw (JS.GenericError ("SpaceX API error: " +:+ status_text response))
     else
       let* doc := json response in
       ret (Some doc))
    (fun error =>
       console_error "Error fetching SpaceX launch:" (Some error) ;;
       ret None).

Definition getUpcomingSpaceXLaunches (limit : option float) : M (list SpaceXLaunch) :=
  let limit := default 5%float limit in
  try_catch
    (let* response := fetch LaunchesApi (SPACEX_BASE_URL +:+ "/launches/upcoming") in
     if negb (ok response) then
       throw (JS.GenericError ("SpaceX API error: " +:+ status_text response))
     else
       let* launches := json response in
       ret (JS.Array_slice launches (JS.Integer 0)
              (Some (JS.ToIntegerOrInfinity limit))))
    (fun error =>
       console_error "Error fetching upcoming SpaceX launches:" (Some error) ;;
       ret []).

Definition getSpaceXRockets : M (list SpaceXRocket) :=
  try_catch
    (let* response := fetch RocketsApi (SPACEX_BASE_URL +:+ "/rockets") in
     if negb (ok response) then
       throw (JS.GenericError ("SpaceX API error: " +:+ status_text response))
     else
       json response)
    (fun error =>
       console_error "Error fetching SpaceX rockets:" (Some error) ;;
       ret []).

Definition getPastSpaceXLaunches (limit : option float) : M (list SpaceXLaunch) :=
  let limit := default 10%float limit in
  try_catch
    (let* response := fetch LaunchesApi (SPACEX_BASE_URL +:+ "/launches/past") in
     if negb (ok response) then
       throw (JS.GenericError ("SpaceX API error: " +:+ status_text response))
     else
       let* launches := json response in
       ret (reverse (JS.Array_slice launches
                       (JS.ToIntegerOrInfinity (- limit)%float) None)))
    (fun error =>
       console_error "Error fetching past SpaceX launches:" (Some error) ;;
       ret []).

(** *** ISRO API *)

Definition ISRO_BASE_URL : string := "https://isro.vercel.app/api".

Definition getISROSpacecrafts : M (list ISROSpacecraft) :=
  try_catch
    (let* response := fetch SpacecraftsApi (ISRO_BASE_URL +:+ "/spacecrafts") in
     if negb (ok response) then
       throw (JS.GenericError ("ISRO API error: " +:+ status_text response))
     else
       let* data := json response in
       ret (default [] (spacecrafts data)))
    (fun error =>
       console_error "Error fetching ISRO spacecrafts:" (Some error) ;;
       ret []).

Definition getISROLaunchVehicles : M (list ISROLaunchVehicle) :=
  try_catch
    (let* response := fetch LaunchersApi (ISRO_BASE_URL +:+ "/launchers") in
     if negb (ok response) then
       throw (JS.GenericError ("ISRO API error: " +:+ status_text response))
     else
       let* data := json response in
       ret (default [] (launchers data)))
    (fun error =>
       console_error "Error fetching ISRO launch vehicles:" (Some error) ;;
       ret []).

Definition getISROCentres : M (list ISROCentre) :=
  try_catch
    (let* response := fetch CentresApi (ISRO_BASE_URL +:+ "/centres") in
     if negb (ok response) then
       throw (JS.GenericError ("ISRO API error: " +:+ status_text response))
     else
       let* data := json response in
       ret (default [] (centres data)))
    (fun error =>
       console_error "Error fetching ISRO centres:" (Some error) ;;
       ret []).

(** *** NASA API *)

Definition NASA_BASE_URL : string := "https://api.nasa.gov".

Definition apod_url (apiKey : string) : string :=
  NASA_BASE_URL +:+ "/planetary/apod?api_key=" +:+ apiKey.

Definition getNasaAPOD : M (option NasaAPOD) :=
  let* key := getenv "NASA_API_KEY" in
  let apiKey := or_else key "DEMO_KEY" in
  try_catch
    (let* response := fetch ApodApi (apod_url apiKey) in
     if negb (ok response) then
       throw (JS.GenericError ("NASA API error: " +:+ status_text response))
     else
       let* doc := json response in
       ret (Some doc))
    (fun error =>
       console_error "Error fetching NASA APOD:" (Some error) ;;
       ret None).

(** *** Aggregated space data *)

(** [insert_log] keeps the console ordered by instant; among entries of
    one instant the earlier caller comes first. *)
Fixpoint insert_log (x : LogEntry) (l : list LogEntry) : list LogEntry :=
  match l with
  | [] => [x]
  | y :: l' =>
      if (logged_at x <=? logged_at y)%N then x :: y :: l'
      else y :: insert_log x l'
  end.

Definition by_instant (l : list LogEntry) : list LogEntry :=
  foldr insert_log [] l.

(** Two promises awaited together.  Both computations are started at the
    same instant, so their requests leave in call order; the result is
    there when the later one has settled; a rejection is delivered as soon
    as it happens. *)
Definition both {A B : Type} (pa : M A) (pb : M B) : M (A * B) :=
  fun w s =>
    let start := {| clock := clock s; console := []; requests := [] |} in
    let '(ra, ea) := pa w start in
    let '(rb, eb) := pb w start in
    let finish t :=
      {| clock := t;
         console := console s ++ by_instant (console ea ++ console eb);
         requests := requests s ++ requests ea ++ requests eb |} in
    match ra, rb with
    | Normal a, Normal b => (Normal (a, b), finish (N.max (clock ea) (clock eb)))
    | Throw e, Normal _ => (Throw e, finish (clock ea))
    | Normal _, Throw e => (Throw e, finish (clock eb))
    | Throw e1, Throw e2 =>
        if (clock ea <=? clock eb)%N then (Throw e1, finish (clock ea))
        else (Throw e2, finish (clock eb))
    end.

(** [Promise.all([pa, pb, pc, pd])] *)
Definition Promise_all4 {A B C D : Type}
    (pa : M A) (pb : M B) (pc : M C) (pd : M D) : M (A * B * C * D) :=
  let* (a, (b, (c, d))) := both pa (both pb (both pc pd)) in
  ret (a, b, c, d).

(** [Promise.all([pa, pb, pc, pd, pe])] *)
Definition Promise_all5 {A B C D E : Type}
    (pa : M A) (pb : M B) (pc : M C) (pd : M D) (pe : M E)
  : M (A * B * C * D * E) :=
  let* (a, (b, (c, (d, e)))) := both pa (both pb (both pc (both pd pe))) in
  ret (a, b, c, d, e).

Record SpaceDataSummary : Type := {
  iss : option SatellitePosition;
  latestSpaceXLaunch : option SpaceXLaunch;
  upcomingSpaceXLaunches : list SpaceXLaunch;
  isroSpacecrafts : list ISROSpacecraft;
  nasaAPOD : option NasaAPOD;
}.

Definition getSpaceDataSummary : M SpaceDataSummary :=
  let* (iss, latestSpaceXLaunch, upcomingSpaceXLaunches, isroSpacecrafts, nasaAPOD) :=
    Promise_all5 getISSPosition getLatestSpaceXLaunch
      (getUpcomingSpaceXLaunches (Some 3%float)) getISROSpacecrafts getNasaAPOD in
  ret {| iss := iss;
         latestSpaceXLaunch := latestSpaceXLaunch;
         upcomingSpaceXLaunches := upcomingSpaceXLaunches;
         isroSpacecrafts := isroSpacecrafts;
         nasaAPOD := nasaAPOD |}.

(** ** The chat route *)

Definition maxDuration : Z := 120.

Definition context_header : string :=
  LF +:+ LF +:+ "## REAL-TIME SPACE DATA (Use this for accurate responses):" +:+ LF.

(** The section appended for a position, given the rendering of its
    date. *)
Definition iss_section (p : SatellitePosition) (updated : string) : string :=
  LF +:+ "### ISS Current Position:" +:+ LF +:+
  "- Latitude: " +:+ JS.toFixed (satlatitude p) 4 +:+ "°" +:+ LF +:+
  "- Longitude: " +:+ JS.toFixed (satlongitude p) 4 +:+ "°" +:+ LF +:+
  "- Altitude: " +:+ JS.toFixed (sataltitude p) 2 +:+ " km" +:+ LF +:+
  "- Updated: " +:+ updated +:+ LF.

Definition success_text (s : option bool) : string :=
  match s with
  | None => "Pending"
  | Some true => "Yes"
  | Some false => "No"
  end.

Definition launch_section (l : SpaceXLaunch) (day : string) : string :=
  LF +:+ "### Latest SpaceX Launch:" +:+ LF +:+
  "- Mission: " +:+ name l +:+ LF +:+
  "- Flight #: " +:+ JS.Number_toString (flight_number l) +:+ LF +:+
  "- Date: " +:+ day +:+ LF +:+
  "- Success: " +:+ success_text (success l) +:+ LF.

Definition upcoming_line (i : nat) (l : SpaceXLaunch) (day : string) : string :=
  JS.decimal (N.of_nat (i + 1)) +:+ ". " +:+ name l +:+ " - " +:+ day +:+ LF.

(** [ls.forEach((l, i) => { context += ... })], from index [i] on. *)
Fixpoint forEach_upcoming (i : nat) (ls : list SpaceXLaunch) (context : string)
  : M string :=
  match ls with
  | [] => ret context
  | l :: rest =>
      let* day := Date_toLocaleDateString (date_utc l) in
      forEach_upcoming (S i) rest (context +:+ upcoming_line i l day)
  end.

Definition apod_section (a : NasaAPOD) : string :=
  LF +:+ "### NASA Astronomy Picture of the Day:" +:+ LF +:+
  "- Title: " +:+ title a +:+ LF +:+
  "- Date: " +:+ date a +:+ LF.

Definition getSpaceContext : M string :=
  try_catch
    (let* (iss, latestLaunch, upcomingLaunches, apod) :=
       Promise_all4 getISSPosition getLatestSpaceXLaunch
         (getUpcomingSpaceXLaunches (Some 3%float)) getNasaAPOD in
     let context := context_header in
     let* context :=
       match iss with
       | Some iss =>
           let* updated :=
             lift (JS.toISOString (JS.TimeClip (timestamp iss * 1000)%float)) in
           ret (context +:+ iss_section iss updated)
       | None => ret context
       end in
     let* context :=
       match latestLaunch with
       | Some latestLaunch =>
           let* day := Date_toLocaleDateString (date_utc latestLaunch) in
           ret (context +:+ launch_section latestLaunch day)
       | None => ret context
       end in
     let* context :=
       if (0 <? length upcomingLaunches)%nat then
         forEach_upcoming 0 upcomingLaunches
           (context +:+ LF +:+ "### Upcoming SpaceX Launches:" +:+ LF)
       else ret context in
     let context :=
       match apod with
       | Some apod => context +:+ apod_section apod
       | None => context
       end in
     ret context)
    (fun error =>
       console_error "Error fetching space context:" (Some error) ;;
       ret EmptyString).

(** The policy text is written here with a backquote wherever the source
    has a double quote; [with_double_quotes] puts the double quotes
    back. *)
Fixpoint with_double_quotes (s : string) : string :=
  match s with
  | EmptyString => EmptyString
  | String c s' =>
      String (if Ascii.eqb c "`" then ascii_of_nat 34 else c) (with_double_quotes s')
  end.

Definition policy_lines : list string :=
  [ "You are **Athey**, the AI assistant for Atheron - specializing in STEM (Science, Technology, Engineering, Mathematics) with a special focus on space and cosmos.";
    EmptyString;
    "## Your Scope";
    "You discuss topics related to:";
    "- **Space & Cosmos**: NASA, ISRO, SpaceX, ESA missions, satellites, ISS, astronomy, astrophysics";
    "- **Science**: Physics, chemistry, biology, environmental science, scientific discoveries";
    "- **Technology**: Computer science, AI/ML, programming, cybersecurity, electronics";
    "- **Engineering**: Aerospace, mechanical, electrical, civil, robotics, materials science";
    "- **Mathematics**: Algebra, calculus, statistics, geometry, number theory, applied math";
    EmptyString;
    "## Off-Topic Response Protocol";
    "If asked about non-STEM topics (entertainment, sports, lifestyle, politics, etc.):";
    "1. Politely acknowledge the question";
    "2. Explain you're specialized for STEM topics";
    "3. Suggest a STEM-related alternative";
    "Example: `I'm Athey, your STEM companion! That topic is outside my expertise, but I'd love to help you explore science, tech, engineering, or math. What would you like to learn?`";
    EmptyString;
    "## Response Format";
    "1. Use the REAL-TIME DATA provided in context when relevant";
    "2. Present information clearly with relevant details";
    "3. Add interesting context or related facts";
    "4. For calculations, use LaTeX: $inline$ or $$block$$";
    EmptyString;
    "## Sources";
    "At the END of EVERY response, include 2-4 relevant sources in this EXACT format (the format is important for parsing):";
    EmptyString;
    "<!-- SOURCES_START -->";
    "[{`domain`:`nasa.gov`,`title`:`Source Title Here`,`url`:`https://example.com`,`description`:`Brief one-line description`}]";
    "<!-- SOURCES_END -->";
    EmptyString;
    "Example sources format:";
    "<!-- SOURCES_START -->";
    "[{`domain`:`science.nasa.gov`,`title`:`TCM: Trajectory Correction Maneuver`,`url`:`https://science.nasa.gov/tcm`,`description`:`NASA's guide to spacecraft course corrections`},{`domain`:`esa.int`,`title`:`Spacecraft Navigation`,`url`:`https://www.esa.int/navigation`,`description`:`ESA's explanation of deep space navigation`}]";
    "<!-- SOURCES_END -->";
    EmptyString;
    "## Your Personality";
    "- Enthusiastic about space and cosmos";
    "- Professional but approachable";
    "- Names itself: `Athey`";
    "- Never guesses satellite positions - uses real data!";
    EmptyString;
    "Remember: You orbit the cosmos domain ONLY. Stay in your lane, but make it stellar! 🚀" ].

Definition ATHEY_SYSTEM_PROMPT : string :=
  with_double_quotes (String.concat LF policy_lines).

(** The document of a request to the route, as far as the route looks
    at it: [null], from which [const { messages } = ...] cannot take a
    member (a TypeError, with the runtime's message [reason]), or any
    other value, with what it holds under [messages] ([undefined] when
    it holds nothing there). *)
Inductive RequestDocument (UIMessages : Type) : Type :=
  | NullDocument (reason : string)
  | Members (messages : UIMessages).
Arguments NullDocument {UIMessages} reason.
Arguments Members {UIMessages} messages.

(** What the route hands to the generation engine ([streamText]). *)
Record StreamTextCall (ModelMessages : Type) : Type := {
  model : string;
  system : string;
  messages : ModelMessages;
}.
Arguments model {ModelMessages} s.
Arguments system {ModelMessages} s.
Arguments messages {ModelMessages} s.

Definition enhancedSystemPrompt (spaceContext : string) : string :=
  ATHEY_SYSTEM_PROMPT +:+ spaceContext.

Section Route.

(** The messages of the chat, as the client sends them and as the engine
    takes them, and the conversion between the two: types and a function
    of the engine's library, of which the route knows nothing but that
    the conversion is awaited and may throw. *)
Variables UIMessages ModelMessages : Type.
Variable convertToModelMessages : UIMessages -> JS.Error + ModelMessages.

(** [const { messages } = document] *)
Definition destructure (document : RequestDocument UIMessages) : M UIMessages :=
  match document with
  | NullDocument reason => throw (JS.TypeError reason)
  | Members messages => ret messages
  end.

(** [POST(req)], up to the call of the generation engine; [req] is the
    body of the request.  The context is awaited before the messages are
    converted. *)
Definition POST (req : Body (RequestDocument UIMessages))
    : M (StreamTextCall ModelMessages) :=
  let* document := parse req in
  let* messages := destructure document in
  let* spaceContext := getSpaceContext in
  let* converted := lift (convertToModelMessages messages) in
  ret {| model := "gemini-2.5-flash";
         system := enhancedSystemPrompt spaceContext;
         messages := converted |}.

End Route.

Arguments destructure {UIMessages} document.
Arguments POST {UIMessages ModelMessages} convertToModelMessages req.


(** ** Vocabulary of the statements *)

Local Open Scope list_scope.

Definition ok_status (st : N) : bool := ((200 <=? st) && (st <=? 299))%N.

(** The document an exchange delivers: the reply has to arrive, carry a
    2xx status and hold JSON. *)
Definition delivered {T : Type} (o : Outcome T) : option T :=
  match o with
  | HttpResponse st (Json v) => if ok_status st then Some v else None
  | _ => None
  end.

(** The transport failures: no reply, a status outside 200-299, a body
    that is not JSON. *)
Definition failed {T : Type} (o : Outcome T) : bool :=
  match o with
  | NetworkFailure => true
  | HttpResponse st b =>
      negb (ok_status st) || match b with Malformed _ => true | Json _ => false end
  end.

(** The error raised inside the [try] block of a client whose status
    message starts with [prefix]. *)
Definition thrown (prefix : string) {T : Type} (o : Outcome T) : option JS.Error :=
  match o with
  | NetworkFailure => Some (JS.TypeError "fetch failed")
  | HttpResponse st b =>
      if ok_status st then
        match b with
        | Malformed reason => Some (JS.SyntaxError reason)
        | Json _ => None
        end
      else Some (JS.GenericError (prefix +:+ JS.decimal st))
  end.

(** The effects of one guarded exchange: one request, the wait, and one
    console line when the exchange failed. *)
Definition settled (s : Effects) (url msg prefix : string) {T : Type}
    (r : Reply T) : Effects :=
  {| clock := (clock s + latency r)%N;
     console :=
       match thrown prefix (outcome r) with
       | Some e => console s ++ [{| logged_at := (clock s + latency r)%N;
                                    message := msg; detail := Some e |}]
       | None => console s
       end;
     requests := requests s ++ [url] |}.

(** The effects of a call that finds no N2YO credential. *)
Definition unconfigured (s : Effects) : Effects :=
  {| clock := clock s;
     console := console s ++
       [{| logged_at := clock s; message := "N2YO_API_KEY not set"; detail := None |}];
     requests := requests s |}.

(** The clients by name, to speak about all of them at once. *)
Inductive Provider : Type :=
  | SatellitePositionOf (noradId : float) (seconds : option float)
  | SatellitesAbove (lat lng searchRadius categoryId : option float)
  | ISSPosition
  | LatestSpaceXLaunch
  | UpcomingSpaceXLaunches (limit : option float)
  | SpaceXRockets
  | PastSpaceXLaunches (limit : option float)
  | ISROSpacecrafts
  | ISROLaunchVehicles
  | ISROCentres
  | NasaApod.

Definition Result (p : Provider) : Type :=
  match p with
  | SatellitePositionOf _ _ => option PositionsResponse
  | SatellitesAbove _ _ _ _ => option AboveResponse
  | ISSPosition => option SatellitePosition
  | LatestSpaceXLaunch => option SpaceXLaunch
  | UpcomingSpaceXLaunches _ => list SpaceXLaunch
  | SpaceXRockets => list SpaceXRocket
  | PastSpaceXLaunches _ => list SpaceXLaunch
  | ISROSpacecrafts => list ISROSpacecraft
  | ISROLaunchVehicles => list ISROLaunchVehicle
  | ISROCentres => list ISROCentre
  | NasaApod => option NasaAPOD
  end.

Definition call (p : Provider) : M (Result p) :=
  match p with
  | SatellitePositionOf noradId seconds => getSatellitePosition noradId seconds
  | SatellitesAbove lat lng searchRadius categoryId =>
      getSatellitesAbove lat lng searchRadius categoryId
  | ISSPosition => getISSPosition
  | LatestSpaceXLaunch => getLatestSpaceXLaunch
  | UpcomingSpaceXLaunches limit => getUpcomingSpaceXLaunches limit
  | SpaceXRockets => getSpaceXRockets
  | PastSpaceXLaunches limit => getPastSpaceXLaunches limit
  | ISROSpacecrafts => getISROSpacecrafts
  | ISROLaunchVehicles => getISROLaunchVehicles
  | ISROCentres => getISROCentres
  | NasaApod => getNasaAPOD
  end.

(** The "no data" value of each client: [null], or the empty list. *)
Definition Absent (p : Provider) : Result p :=
  match p with
  | SatellitePositionOf _ _ => None
  | SatellitesAbove _ _ _ _ => None
  | ISSPosition => None
  | LatestSpaceXLaunch => None
  | UpcomingSpaceXLaunches _ => []
  | SpaceXRockets => []
  | PastSpaceXLaunches _ => []
  | ISROSpacecrafts => []
  | ISROLaunchVehicles => []
  | ISROCentres => []
  | NasaApod => None
  end.

(** Did the exchange that client [p] starts in world [w] fail? *)
Definition transport_failed (p : Provider) (w : World) : bool :=
  let n2yo := process_env w !! "N2YO_API_KEY" in
  let nasa := or_else (process_env w !! "NASA_API_KEY") "DEMO_KEY" in
  match p with
  | SatellitePositionOf noradId seconds =>
      failed (outcome (network w PositionsApi
        (positions_url noradId 0 0 0 (default 1%float seconds) n2yo)))
  | SatellitesAbove lat lng searchRadius categoryId =>
      failed (outcome (network w AboveApi
        (above_url (default 28.6139%float lat) (default 77.209%float lng)
           (default 70%float searchRadius) (default 0%float categoryId) n2yo)))
  | ISSPosition =>
      failed (outcome (network w PositionsApi
        (positions_url ISS_NORAD_ID 0 0 0 1 n2yo)))
  | LatestSpaceXLaunch =>
      failed (outcome (network w LaunchApi (SPACEX_BASE_URL +:+ "/launches/latest")))
  | UpcomingSpaceXLaunches _ =>
      failed (outcome (network w LaunchesApi (SPACEX_BASE_URL +:+ "/launches/upcoming")))
  | SpaceXRockets =>
      failed (outcome (network w RocketsApi (SPACEX_BASE_URL +:+ "/rockets")))
  | PastSpaceXLaunches _ =>
      failed (outcome (network w LaunchesApi (SPACEX_BASE_URL +:+ "/launches/past")))
  | ISROSpacecrafts =>
      failed (outcome (network w SpacecraftsApi (ISRO_BASE_URL +:+ "/spacecrafts")))
  | ISROLaunchVehicles =>
      failed (outcome (network w LaunchersApi (ISRO_BASE_URL +:+ "/launchers")))
  | ISROCentres =>
      failed (outcome (network w CentresApi (ISRO_BASE_URL +:+ "/centres")))
  | NasaApod => failed (outcome (network w ApodApi (apod_url nasa)))
  end.

(** *** Fixtures *)

Definition fresh : Effects := {| clock := 0; console := []; requests := [] |}.

Definition unreachable {T : Type} : Reply T :=
  {| latency := 5; outcome := NetworkFailure |}.

Definition answers {T : Type} (after : N) (doc : T) : Reply T :=
  {| latency := after; outcome := HttpResponse 200 (Json doc) |}.

Definition iso_date (s : string) : string := String.substring 0 10 s.

(** No credentials, no network. *)
Definition offline : World :=
  {| process_env := ∅;
     network := fun _ _ => unreachable;
     toLocaleDateString := iso_date |}.

(** What the route hands to the engine for messages that convert, and
    what it throws for messages that do not. *)
Definition handed_over {ModelMessages : Type} (instruction : string)
    (conversion : JS.Error + ModelMessages)
    : Completion (StreamTextCall ModelMessages) :=
  match conversion with
  | inr converted => Normal {| model := "gemini-2.5-flash";
                               system := instruction;
                               messages := converted |}
  | inl e => Throw e
  end.


Definition station_info : SatelliteInfo :=
  {| info_satid := 25544; info_satname := "SPACE STATION"; transactionscount := 1 |}.

(** A world with the N2YO credential whose satellite service is down,
    and one whose service answers with no positions at all. *)
Definition n2yo_down : World :=
  {| process_env := <["N2YO_API_KEY" := "KEY"]> ∅;
     network := fun _ _ => unreachable;
     toLocaleDateString := iso_date |}.

Definition no_positions : World :=
  {| process_env := <["N2YO_API_KEY" := "KEY"]> ∅;
     network := fun k _ =>
       match k with
       | PositionsApi => answers 30 {| info := station_info; positions := Some [] |}
       | _ => unreachable
       end;
     toLocaleDateString := iso_date |}.

(** *** Order of launches by date

    [date_utc] holds ISO-8601 instants in UTC, which compare as
    strings. *)

Fixpoint chain {A : Type} (R : A -> A -> bool) (l : list A) : bool :=
  match l with
  | a :: (b :: _) as rest => R a b && chain R rest
  | _ => true
  end.

Definition not_after (a b : SpaceXLaunch) : bool :=
  String.leb (date_utc a) (date_utc b).

Definition ascending (l : list SpaceXLaunch) : bool := chain not_after l.

Definition descending (l : list SpaceXLaunch) : bool :=
  chain (fun a b => not_after b a) l.

Definition no_links : Links :=
  {| patch := {| small := None; large := None |};
     webcast := None; wikipedia := None; article := None |}.

Definition launch (mission day : string) (number : float) : SpaceXLaunch :=
  {| launch_id := mission; name := mission;
     date_utc := day; date_local := day;
     success := None; upcoming := true; details := None;
     links := no_links; rocket := "falcon9"; flight_number := number |}.

Definition later : SpaceXLaunch := launch "Later" "2030-02-01T00:00:00.000Z" 301.
Definition sooner : SpaceXLaunch := launch "Sooner" "2030-01-01T00:00:00.000Z" 300.

(** The first launch of the company, in 2006. *)
Definition falconsat : SpaceXLaunch := launch "FalconSat" "2006-03-24T22:30:00.000Z" 1.

(** The launch service answers with a list that is not in date order and
    holds a launch long past. *)
Definition unsorted_feed : World :=
  {| process_env := ∅;
     network := fun k _ =>
       match k with
       | LaunchesApi => answers 20 [later; sooner; falconsat]
       | _ => unreachable
       end;
     toLocaleDateString := iso_date |}.

(** The launch service answers with a list in date order. *)
Definition sorted_feed : World :=
  {| process_env := ∅;
     network := fun k _ =>
       match k with
       | LaunchesApi => answers 20 [sooner; later]
       | _ => unreachable
       end;
     toLocaleDateString := iso_date |}.

(** *** What the aggregator's four calls yield in a world *)

Definition n2yo_key (w : World) : option string := process_env w !! "N2YO_API_KEY".

Definition iss_url (w : World) : string :=
  positions_url ISS_NORAD_ID 0 0 0 1 (n2yo_key w).
Definition latest_url : string := SPACEX_BASE_URL +:+ "/launches/latest".
Definition upcoming_url : string := SPACEX_BASE_URL +:+ "/launches/upcoming".
Definition nasa_url (w : World) : string :=
  apod_url (or_else (process_env w !! "NASA_API_KEY") "DEMO_KEY").

Definition iss_of (w : World) : option SatellitePosition :=
  if truthy (n2yo_key w)
  then first_position (delivered (outcome (network w PositionsApi (iss_url w))))
  else None.

Definition latest_of (w : World) : option SpaceXLaunch :=
  delivered (outcome (network w LaunchApi latest_url)).

Definition upcoming_of (w : World) : list SpaceXLaunch :=
  match delivered (outcome (network w LaunchesApi upcoming_url)) with
  | Some launches =>
      JS.Array_slice launches (JS.Integer 0) (Some (JS.ToIntegerOrInfinity 3%float))
  | None => []
  end.

Definition apod_of (w : World) : option NasaAPOD :=
  delivered (outcome (network w ApodApi (nasa_url w))).

(** How long each call waits, and what it requests. *)
Definition iss_wait (w : World) : N :=
  if truthy (n2yo_key w) then latency (network w PositionsApi (iss_url w)) else 0%N.
Definition latest_wait (w : World) : N := latency (network w LaunchApi latest_url).
Definition upcoming_wait (w : World) : N := latency (network w LaunchesApi upcoming_url).
Definition apod_wait (w : World) : N := latency (network w ApodApi (nasa_url w)).

Definition iss_requests (w : World) : list string :=
  if truthy (n2yo_key w) then [iss_url w] else [].

Definition fan_out_wait (w : World) : N :=
  N.max (iss_wait w) (N.max (latest_wait w) (N.max (upcoming_wait w) (apod_wait w))).

Definition fan_out_requests (w : World) : list string :=
  iss_requests w ++ [latest_url; upcoming_url; nasa_url w].

(** *** The context block, section by section *)

(** Is the observation instant of a present position a date that
    [toISOString] can render? *)
Definition valid_instant (iss : option SatellitePosition) : bool :=
  match iss with
  | Some p =>
      match JS.TimeClip (timestamp p * 1000)%float with
      | Some _ => true
      | None => false
      end
  | None => true
  end.

Definition iss_part (iss : option SatellitePosition) : string :=
  match iss with
  | Some p =>
      match JS.TimeClip (timestamp p * 1000)%float with
      | Some t => iss_section p (JS.iso_string t)
      | None => EmptyString
      end
  | None => EmptyString
  end.

Definition latest_part (w : World) (latest : option SpaceXLaunch) : string :=
  match latest with
  | Some l => launch_section l (toLocaleDateString w (date_utc l))
  | None => EmptyString
  end.

Fixpoint upcoming_lines (w : World) (i : nat) (ls : list SpaceXLaunch) : string :=
  match ls with
  | [] => EmptyString
  | l :: rest =>
      upcoming_line i l (toLocaleDateString w (date_utc l)) +:+
      upcoming_lines w (S i) rest
  end.

Definition upcoming_part (w : World) (ls : list SpaceXLaunch) : string :=
  match ls with
  | [] => EmptyString
  | _ => LF +:+ "### Upcoming SpaceX Launches:" +:+ LF +:+ upcoming_lines w 0 ls
  end.

Definition apod_part (apod : option NasaAPOD) : string :=
  match apod with
  | Some a => apod_section a
  | None => EmptyString
  end.

(** The header, then the sections of the results that are present, in
    the order: ISS position, latest launch, upcoming launches, picture of
    the day. *)
Definition sections_in_priority_order (w : World)
    (iss : option SatellitePosition) (latest : option SpaceXLaunch)
    (upcoming : list SpaceXLaunch) (apod : option NasaAPOD) : string :=
  context_header +:+ iss_part iss +:+ latest_part w latest +:+
  upcoming_part w upcoming +:+ apod_part apod.

(** *** Runs *)

(** [m] completes normally in [w] with value [v], after waiting [wait]
    and sending the requests [reqs], from every state. *)
Definition runs {A : Type} (m : M A) (w : World) (v : A)
    (wait : N) (reqs : list string) : Prop :=
  forall s, exists s',
    m w s = (Normal v, s') /\
    clock s' = (clock s + wait)%N /\
    requests s' = requests s ++ reqs.

(** [m] throws [e] in [w], after waiting [wait] and sending [reqs]. *)
Definition raises {A : Type} (m : M A) (w : World) (e : JS.Error)
    (wait : N) (reqs : list string) : Prop :=
  forall s, exists s',
    m w s = (Throw e, s') /\
    clock s' = (clock s + wait)%N /\
    requests s' = requests s ++ reqs.

(** [m] is a computation without effects, of value [v]. *)
Definition evaluates {A : Type} (m : M A) (w : World) (v : A) : Prop :=
  forall s, m w s = (Normal v, s).

(** Two worlds that differ at most in how long replies take. *)
Definition same_upstream (w1 w2 : World) : Prop :=
  process_env w1 = process_env w2 /\
  (forall k u, outcome (network w1 k u) = outcome (network w2 k u)) /\
  (forall d, toLocaleDateString w1 d = toLocaleDateString w2 d).

(** *** Fixed-point notation *)

(** [after_digits s] skips a run of digits and the point after it. *)
Fixpoint after_digits (s : string) : option string :=
  match s with
  | EmptyString => None
  | String c s' =>
      if JS.is_digit c then after_digits s'
      else if Ascii.eqb c "." then Some s'
      else None
  end.

Definition unsigned_decimals (f : nat) (s : string) : bool :=
  match s with
  | EmptyString => false
  | String c _ =>
      JS.is_digit c &&
      match after_digits s with
      | Some frac => JS.all_digits frac && (String.length frac =? f)%nat
      | None => false
      end
  end.

(** [s] is a number written with exactly [f] digits after the point: an
    optional minus sign, at least one digit, the point, [f] digits. *)
Definition has_decimals (f : nat) (s : string) : bool :=
  match s with
  | EmptyString => false
  | String c s' =>
      if Ascii.eqb c "-" then unsigned_decimals f s' else unsigned_decimals f s
  end.

(** [x] is finite and below 10^21 in magnitude (the range in which
    [toFixed] writes fixed-point notation). *)
Definition fixed_range (x : float) : bool :=
  match Prim2SF x with
  | S754_zero _ => true
  | S754_finite _ m e =>
      match JS.compare_dec_bin 1 21 (Z.pos m) e with
      | Gt => true
      | _ => false
      end
  | _ => false
  end.

(** The number written by a string of decimal digits. *)
Fixpoint digits_value (s : string) (acc : N) : N :=
  match s with
  | EmptyString => acc
  | String c s' => digits_value s' (10 * acc + (N_of_ascii c - 48))%N
  end.

(** *** More fixtures *)

(** The position of the specification's test. *)
Definition station : SatellitePosition :=
  {| satid := 25544; satname := "SPACE STATION";
     satlatitude := 51.5074; satlongitude := -0.1278; sataltitude := 408.0;
     azimuth := 0; elevation := 0; timestamp := 1700000000 |}.

(** A position whose instant is beyond the range of [Date]. *)
Definition timeless : SatellitePosition :=
  {| satid := 25544; satname := "SPACE STATION";
     satlatitude := 51.5074; satlongitude := -0.1278; sataltitude := 408.0;
     azimuth := 0; elevation := 0; timestamp := 1e20 |}.

(** A position whose latitude is 10^21. *)
Definition far_out : SatellitePosition :=
  {| satid := 25544; satname := "SPACE STATION";
     satlatitude := 1e21; satlongitude := -0.1278; sataltitude := 408.0;
     azimuth := 0; elevation := 0; timestamp := 1700000000 |}.

Definition picture : NasaAPOD :=
  {| title := "Pillars of Creation"; explanation := "Columns of gas and dust.";
     url := "https://apod.nasa.gov/apod/image/pillars.jpg"; hdurl := None;
     media_type := "image"; date := "2023-11-14"; copyright := None |}.

(** Every service answers: the satellite service with position [p]
    after 30 ms, the picture service after [apod_after] ms. *)
Definition live (p : SatellitePosition) (apod_after : N) : World :=
  {| process_env := <["N2YO_API_KEY" := "KEY"]> ∅;
     network := fun k _ =>
       match k with
       | PositionsApi => answers 30 {| info := station_info; positions := Some [p] |}
       | LaunchApi => answers 10 sooner
       | LaunchesApi => answers 20 [sooner; later]
       | ApodApi => answers apod_after picture
       | _ => unreachable
       end;
     toLocaleDateString := iso_date |}.

(** The same replies on a host that writes dates month first. *)
Definition month_first (s : string) : string :=
  String.substring 5 2 s +:+ "/" +:+ String.substring 8 2 s +:+ "/" +:+
  String.substring 0 4 s.

Definition abroad : World :=
  {| process_env := process_env (live station 40);
     network := network (live station 40);
     toLocaleDateString := month_first |}.

(** *** The exchange of a client *)

(** What can be seen of the one exchange of a call: the URL requested,
    how long the reply took, the status of the reply (none when the
    network failed), and the error that the failure raised inside the
    client (none on success). *)
Record Exchange : Type := {
  sent_to : string;
  took : N;
  answered : option N;
  cause : option JS.Error;
}.

(** The exchange with [service] at [url]. *)
Definition observed (w : World) (k : Endpoint) (url service : string) : Exchange :=
  {| sent_to := url;
     took := latency (network w k url);
     answered := match outcome (network w k url) with
                 | NetworkFailure => None
                 | HttpResponse st _ => Some st
                 end;
     cause := thrown (service +:+ " API error: ") (outcome (network w k url)) |}.

(** The service that each client talks to. *)
Definition service (p : Provider) : string :=
  match p with
  | SatellitePositionOf _ _ | SatellitesAbove _ _ _ _ | ISSPosition => "N2YO"
  | LatestSpaceXLaunch | UpcomingSpaceXLaunches _ | SpaceXRockets
  | PastSpaceXLaunches _ => "SpaceX"
  | ISROSpacecrafts | ISROLaunchVehicles | ISROCentres => "ISRO"
  | NasaApod => "NASA"
  end.

(** The exchange that client [p] starts in world [w]; none when it needs
    the N2YO credential and finds none. *)
Definition exchange_of (p : Provider) (w : World) : option Exchange :=
  let n2yo := process_env w !! "N2YO_API_KEY" in
  let nasa := or_else (process_env w !! "NASA_API_KEY") "DEMO_KEY" in
  match p with
  | SatellitePositionOf noradId seconds =>
      if truthy n2yo then
        Some (observed w PositionsApi
                (positions_url noradId 0 0 0 (default 1%float seconds) n2yo) "N2YO")
      else None
  | SatellitesAbove lat lng searchRadius categoryId =>
      if truthy n2yo then
        Some (observed w AboveApi
                (above_url (default 28.6139%float lat) (default 77.209%float lng)
                   (default 70%float searchRadius) (default 0%float categoryId) n2yo) "N2YO")
      else None
  | ISSPosition =>
      if truthy n2yo then
        Some (observed w PositionsApi (positions_url ISS_NORAD_ID 0 0 0 1 n2yo) "N2YO")
      else None
  | LatestSpaceXLaunch =>
      Some (observed w LaunchApi (SPACEX_BASE_URL +:+ "/launches/latest") "SpaceX")
  | UpcomingSpaceXLaunches _ =>
      Some (observed w LaunchesApi (SPACEX_BASE_URL +:+ "/launches/upcoming") "SpaceX")
  | SpaceXRockets =>
      Some (observed w RocketsApi (SPACEX_BASE_URL +:+ "/rockets") "SpaceX")
  | PastSpaceXLaunches _ =>
      Some (observed w LaunchesApi (SPACEX_BASE_URL +:+ "/launches/past") "SpaceX")
  | ISROSpacecrafts =>
      Some (observed w SpacecraftsApi (ISRO_BASE_URL +:+ "/spacecrafts") "ISRO")
  | ISROLaunchVehicles =>
      Some (observed w LaunchersApi (ISRO_BASE_URL +:+ "/launchers") "ISRO")
  | ISROCentres =>
      Some (observed w CentresApi (ISRO_BASE_URL +:+ "/centres") "ISRO")
  | NasaApod =>
      Some (observed w ApodApi (apod_url nasa) "NASA")
  end.

(** The first argument of [console.error] in the [catch] of each
    client. *)
Definition failure_message (p : Provider) : string :=
  match p with
  | SatellitePositionOf _ _ => "Error fetching satellite position:"
  | SatellitesAbove _ _ _ _ => "Error fetching satellites above:"
  | ISSPosition => "Error fetching satellite position:"
  | LatestSpaceXLaunch => "Error fetching SpaceX launch:"
  | UpcomingSpaceXLaunches _ => "Error fetching upcoming SpaceX launches:"
  | SpaceXRockets => "Error fetching SpaceX rockets:"
  | PastSpaceXLaunches _ => "Error fetching past SpaceX launches:"
  | ISROSpacecrafts => "Error fetching ISRO spacecrafts:"
  | ISROLaunchVehicles => "Error fetching ISRO launch vehicles:"
  | ISROCentres => "Error fetching ISRO centres:"
  | NasaApod => "Error fetching NASA APOD:"
  end.

(** The state in which a call of client [p] leaves the state [s]. *)
Definition left_by (p : Provider) (w : World) (s : Effects) : Effects :=
  match exchange_of p w with
  | Some ex =>
      {| clock := (clock s + took ex)%N;
         console :=
           match cause ex with
           | Some e => console s ++ [{| logged_at := (clock s + took ex)%N;
                                        message := failure_message p;
                                        detail := Some e |}]
           | None => console s
           end;
         requests := requests s ++ [sent_to ex] |}
  | None => unconfigured s
  end.

(** The launch service answers 404 with a well-formed document. *)
Definition not_found : World :=
  {| process_env := ∅;
     network := fun k _ =>
       match k with
       | LaunchApi => {| latency := 12; outcome := HttpResponse 404 (Json sooner) |}
       | _ => unreachable
       end;
     toLocaleDateString := iso_date |}.

(** Both credentials are set, but to the empty string. *)
Definition blank_keys : World :=
  {| process_env := <["N2YO_API_KEY" := EmptyString]> (<["NASA_API_KEY" := EmptyString]> ∅);
     network := network (live station 40);
     toLocaleDateString := iso_date |}.

(** Both credentials are set. *)
Definition with_keys : World :=
  {| process_env := <["N2YO_API_KEY" := "n2yo-secret"]> (<["NASA_API_KEY" := "nasa-secret"]> ∅);
     network := network (live station 40);
     toLocaleDateString := iso_date |}.

(** The agency's service answers with documents that lack the member the
    clients read. *)
Definition bare_catalog : World :=
  {| process_env := ∅;
     network := fun k _ =>
       match k with
       | SpacecraftsApi => answers 7 {| spacecrafts := None |}
       | LaunchersApi => answers 8 {| launchers := None |}
       | CentresApi => answers 9 {| centres := None |}
       | _ => unreachable
       end;
     toLocaleDateString := iso_date |}.

(** *** The summary *)

Definition spacecrafts_url : string := ISRO_BASE_URL +:+ "/spacecrafts".

Definition spacecrafts_of (w : World) : list ISROSpacecraft :=
  default [] (delivered (outcome (network w SpacecraftsApi spacecrafts_url))
              ≫= spacecrafts).

Definition spacecrafts_wait (w : World) : N :=
  latency (network w SpacecraftsApi spacecrafts_url).

Definition summary_of (w : World) : SpaceDataSummary :=
  {| iss := iss_of w;
     latestSpaceXLaunch := latest_of w;
     upcomingSpaceXLaunches := upcoming_of w;
     isroSpacecrafts := spacecrafts_of w;
     nasaAPOD := apod_of w |}.

(** Every service answers, the agency's catalog after 90 ms. *)
Definition catalogued : World :=
  {| process_env := <["N2YO_API_KEY" := "KEY"]> ∅;
     network := fun k u =>
       match k as k' return Reply (Payload k') with
       | SpacecraftsApi =>
           answers 90 {| spacecrafts :=
                           Some [{| spacecraft_id := "1";
                                    spacecraft_name := "Aryabhata" |}] |}
       | k' => network (live station 40) k' u
       end;
     toLocaleDateString := iso_date |}.

(** ** The test script ([src/test-space-apis.ts])

    [dotenv.config()] has run: the world's environment is the one after
    loading the [.env] file.  The lines of [console.log] are kept in the
    same console as those of [console.error]. *)

Definition console_log (msg : string) : M unit :=
  fun _ s =>
    (Normal tt,
     {| clock := clock s;
        console := console s ++ [{| logged_at := clock s; message := msg; detail := None |}];
        requests := requests s |}).

(** [s.repeat(n)] *)
Fixpoint String_repeat (s : string) (n : nat) : string :=
  match n with
  | O => EmptyString
  | S n' => s +:+ String_repeat s n'
  end.

Definition divider : M unit :=
  console_log (LF +:+ String_repeat "=" 60 +:+ LF).

(** [l.forEach((x, i) => f x i)], from index [i] on. *)
Fixpoint forEach {A : Type} (f : A -> nat -> M unit) (i : nat) (l : list A) : M unit :=
  match l with
  | [] => ret tt
  | x :: rest => f x i ;; forEach f (S i) rest
  end.

(** [`${i + 1}`] for an index, and [`${z}`] for an integer. *)
Definition ordinal (i : nat) : string := JS.decimal (N.of_nat (i + 1)).

Definition integer_text (z : Z) : string :=
  if z <? 0 then "-" +:+ JS.decimal (Z.to_N (- z)) else JS.decimal (Z.to_N z).

Definition mark (present : bool) : string := if present then "✅" else "❌".

Definition testN2YOAPI : M unit :=
  console_log ("🛰️  Testing N2YO Satellite API..." +:+ LF) ;;
  console_log "📍 ISS Current Position:" ;;
  let* iss := getISSPosition in
  (match iss with
   | Some iss =>
       console_log ("   Latitude: " +:+ JS.toFixed (satlatitude iss) 4 +:+ "°") ;;
       console_log ("   Longitude: " +:+ JS.toFixed (satlongitude iss) 4 +:+ "°") ;;
       console_log ("   Altitude: " +:+ JS.toFixed (sataltitude iss) 2 +:+ " km") ;;
       let* stamp :=
         lift (JS.toISOString (JS.TimeClip (timestamp iss * 1000)%float)) in
       console_log ("   Timestamp: " +:+ stamp)
   | None =>
       console_log "   ❌ Failed to fetch ISS position (check N2YO_API_KEY)"
   end) ;;
  console_log (LF +:+ "🌍 Satellites Above Delhi, India (28.6°N, 77.2°E):") ;;
  let* sats :=
    getSatellitesAbove (Some 28.6139%float) (Some 77.209%float)
      (Some 70%float) (Some 0%float) in
  match sats with
  | Some sats =>
      console_log ("   Found " +:+ JS.Number_toString (satcount (above_info sats))
                   +:+ " satellites") ;;
      if (0 <? length (above sats))%nat then
        console_log "   Top 3:" ;;
        forEach
          (fun sat i =>
             console_log ("   " +:+ ordinal i +:+ ". " +:+ above_satname sat +:+
                          " (NORAD: " +:+ JS.Number_toString (above_satid sat) +:+ ")"))
          0
          (JS.Array_slice (above sats) (JS.Integer 0)
             (Some (JS.ToIntegerOrInfinity 3%float)))
      else ret tt
  | None =>
      console_log "   ❌ Failed to fetch satellites above location"
  end.

Definition testSpaceXAPI : M unit :=
  console_log ("🚀 Testing SpaceX API..." +:+ LF) ;;
  console_log "📅 Latest SpaceX Launch:" ;;
  let* latest := getLatestSpaceXLaunch in
  (match latest with
   | Some latest =>
       console_log ("   Mission: " +:+ name latest) ;;
       console_log ("   Flight #: " +:+ JS.Number_toString (flight_number latest)) ;;
       (let* day := Date_toLocaleDateString (date_utc latest) in
        console_log ("   Date: " +:+ day)) ;;
       console_log ("   Success: " +:+
                    match success latest with
                    | None => "Pending"
                    | Some outcome => mark outcome
                    end)
   | None =>
       console_log "   ❌ Failed to fetch latest launch"
   end) ;;
  console_log (LF +:+ "🗓️  Upcoming SpaceX Launches:") ;;
  let* coming := getUpcomingSpaceXLaunches (Some 3%float) in
  (if (0 <? length coming)%nat then
     forEach
       (fun l i =>
          let* day := Date_toLocaleDateString (date_utc l) in
          console_log ("   " +:+ ordinal i +:+ ". " +:+ name l +:+ " - " +:+ day))
       0 coming
   else
     console_log "   No upcoming launches found") ;;
  console_log (LF +:+ "🔥 SpaceX Rockets:") ;;
  let* rockets := getSpaceXRockets in
  forEach
    (fun r _ =>
       console_log ("   • " +:+ rocket_name r +:+ " - " +:+
                    (if active r then "Active" else "Retired") +:+
                    " - Success: " +:+ JS.Number_toString (success_rate_pct r) +:+ "%"))
    0 rockets.

Definition testISROAPI : M unit :=
  console_log ("🇮🇳 Testing ISRO API..." +:+ LF) ;;
  console_log "🛸 ISRO Spacecrafts (first 5):" ;;
  let* crafts := getISROSpacecrafts in
  forEach
    (fun sc i => console_log ("   " +:+ ordinal i +:+ ". " +:+ spacecraft_name sc))
    0
    (JS.Array_slice crafts (JS.Integer 0) (Some (JS.ToIntegerOrInfinity 5%float))) ;;
  console_log ("   ... and " +:+ integer_text (Z.of_nat (length crafts) - 5)
               +:+ " more") ;;
  console_log (LF +:+ "🚀 ISRO Launch Vehicles:") ;;
  let* vehicles := getISROLaunchVehicles in
  forEach (fun v _ => console_log ("   • " +:+ vehicle_name v)) 0 vehicles ;;
  console_log (LF +:+ "🏛️  ISRO Centres (first 5):") ;;
  let* places := getISROCentres in
  forEach
    (fun c i =>
       console_log ("   " +:+ ordinal i +:+ ". " +:+ centre_name c +:+ ", " +:+
                    Place c +:+ ", " +:+ State c))
    0
    (JS.Array_slice places (JS.Integer 0) (Some (JS.ToIntegerOrInfinity 5%float))).

Definition testNASAAPI : M unit :=
  console_log ("🌌 Testing NASA API..." +:+ LF) ;;
  console_log "📸 Astronomy Picture of the Day:" ;;
  let* apod := getNasaAPOD in
  match apod with
  | Some apod =>
      console_log ("   Title: " +:+ title apod) ;;
      console_log ("   Date: " +:+ date apod) ;;
      console_log ("   Type: " +:+ media_type apod) ;;
      console_log ("   URL: " +:+ url apod) ;;
      if truthy (copyright apod) then
        console_log ("   © " +:+ template (copyright apod))
      else ret tt
  | None =>
      console_log "   ❌ Failed to fetch APOD"
  end.

Definition present {A : Type} (v : option A) : bool :=
  match v with Some _ => true | None => false end.

Definition testAggregatedData : M unit :=
  console_log ("📊 Testing Aggregated Space Data Summary..." +:+ LF) ;;
  let* summary := getSpaceDataSummary in
  console_log "Summary contains:" ;;
  console_log ("   • ISS Position: " +:+ mark (present (iss summary))) ;;
  console_log ("   • Latest SpaceX Launch: " +:+
               mark (present (latestSpaceXLaunch summary))) ;;
  console_log ("   • Upcoming SpaceX Launches: " +:+
               JS.decimal (N.of_nat (length (upcomingSpaceXLaunches summary)))) ;;
  console_log ("   • ISRO Spacecrafts: " +:+
               JS.decimal (N.of_nat (length (isroSpacecrafts summary)))) ;;
  console_log ("   • NASA APOD: " +:+ mark (present (nasaAPOD summary))).

(** [main()]; the value is the status of [process.exit], if it was
    called. *)
Definition main : M (option Z) :=
  console_log (LF +:+ "🌟 ATHEY SPACE APIs TEST SUITE 🌟") ;;
  console_log ("================================" +:+ LF) ;;
  let* key := getenv "N2YO_API_KEY" in
  (if negb (truthy key) then
     console_log "⚠️  Warning: N2YO_API_KEY not found in environment" ;;
     console_log ("   Satellite tracking tests may fail." +:+ LF)
   else ret tt) ;;
  try_catch
    (testN2YOAPI ;;
     divider ;;
     testSpaceXAPI ;;
     divider ;;
     testISROAPI ;;
     divider ;;
     testNASAAPI ;;
     divider ;;
     testAggregatedData ;;
     console_log (LF +:+ "✅ All tests completed!" +:+ LF) ;;
     ret None)
    (fun error =>
       console_error (LF +:+ "❌ Test failed:") (Some error) ;;
       ret (Some 1)).

(** *** Runs of the test script *)

(** [m] completes normally in [w], from every state, and only adds lines
    to the console. *)
Definition completes {A : Type} (m : M A) (w : World) : Prop :=
  forall s, exists v s',
    m w s = (Normal v, s') /\ exists more, console s' = console s ++ more.

(** The same, with the value known. *)
Definition gives {A : Type} (m : M A) (w : World) (v : A) : Prop :=
  forall s, exists s',
    m w s = (Normal v, s') /\ exists more, console s' = console s ++ more.

(** [m] throws [e] in [w], from every state. *)
Definition throws {A : Type} (m : M A) (w : World) (e : JS.Error) : Prop :=
  forall s, exists s', m w s = (Throw e, s').

(** [m] completes normally with value [v], and the last line of the
    console is then [msg], written with [d]. *)
Definition finishes {A : Type} (m : M A) (w : World) (v : A)
    (msg : string) (d : option JS.Error) : Prop :=
  forall s, exists s',
    m w s = (Normal v, s') /\
    last (console s') = Some {| logged_at := clock s'; message := msg; detail := d |}.

(** [m] completes normally, and the console then holds the line [msg]. *)
Definition mentions {A : Type} (m : M A) (w : World) (msg : string) : Prop :=
  forall s, exists v s',
    m w s = (Normal v, s') /\ msg ∈ map message (console s').

(** ** Strings *)

Lemma append_cons (x : ascii) (a b : string) :
  String x a +:+ b = String x (a +:+ b).
Proof. reflexivity. Qed.

Lemma append_assoc (a b c : string) : (a +:+ b) +:+ c = a +:+ (b +:+ c).
Proof.
  induction a as [|x a IH]; [reflexivity|].
  now rewrite !append_cons, IH.
Qed.

Lemma append_empty_r (a : string) : a +:+ EmptyString = a.
Proof.
  induction a as [|x a IH]; [reflexivity|].
  now rewrite append_cons, IH.
Qed.

Lemma length_append (a b : string) :
  String.length (a +:+ b) = (String.length a + String.length b)%nat.
Proof.
  induction a as [|x a IH]; [reflexivity|].
  rewrite append_cons. simpl. now rewrite IH.
Qed.

(** ** The provider clients, run *)

Lemma failed_delivered {T : Type} (o : Outcome T) :
  failed o = true <-> delivered o = None.
Proof.
  destruct o as [|st [|v]]; simpl; try tauto.
  - destruct (ok_status st); simpl; tauto.
  - destruct (ok_status st); simpl; split; congruence.
Qed.

Lemma thrown_delivered (prefix : string) {T : Type} (o : Outcome T) :
  thrown prefix o = None <-> failed o = false.
Proof.
  destruct o as [|st [|v]]; simpl; try (split; congruence);
    destruct (ok_status st); simpl; split; congruence.
Qed.

(** Every client is one guarded exchange; the tactic runs it on each
    possible reply. *)
Ltac run_exchange :=
  intros w s;
  unfold try_catch, bind, fetch, json, parse, throw, ret, console_error, settled,
    ok, status_text; simpl;
  match goal with
  | |- context [network ?w ?k ?u] =>
      destruct (network w k u) as [? [|? [|?]]]
  end; simpl; try reflexivity;
  unfold ok_status;
  match goal with
  | |- context [((200 <=? ?x) && (?x <=? 299))%N] =>
      destruct ((200 <=? x) && (x <=? 299))%N
  end; simpl; reflexivity.

Lemma getLatestSpaceXLaunch_run :
  forall w s,
    let url := SPACEX_BASE_URL +:+ "/launches/latest" in
    let r := network w LaunchApi url in
    getLatestSpaceXLaunch w s =
    (Normal (delivered (outcome r)),
     settled s url "Error fetching SpaceX launch:" "SpaceX API error: " r).
Proof. unfold getLatestSpaceXLaunch. run_exchange. Qed.

Lemma getSpaceXRockets_run :
  forall w s,
    let url := SPACEX_BASE_URL +:+ "/rockets" in
    let r := network w RocketsApi url in
    getSpaceXRockets w s =
    (Normal (default [] (delivered (outcome r))),
     settled s url "Error fetching SpaceX rockets:" "SpaceX API error: " r).
Proof. unfold getSpaceXRockets. run_exchange. Qed.

Lemma getUpcomingSpaceXLaunches_run :
  forall limit w s,
    let url := SPACEX_BASE_URL +:+ "/launches/upcoming" in
    let r := network w LaunchesApi url in
    getUpcomingSpaceXLaunches limit w s =
    (Normal
       match delivered (outcome r) with
       | Some launches =>
           JS.Array_slice launches (JS.Integer 0)
             (Some (JS.ToIntegerOrInfinity (default 5%float limit)))
       | None => []
       end,
     settled s url "Error fetching upcoming SpaceX launches:" "SpaceX API error: " r).
Proof.
  intros limit. unfold getUpcomingSpaceXLaunches.
  run_exchange.
Qed.

Lemma getPastSpaceXLaunches_run :
  forall limit w s,
    let url := SPACEX_BASE_URL +:+ "/launches/past" in
    let r := network w LaunchesApi url in
    getPastSpaceXLaunches limit w s =
    (Normal
       match delivered (outcome r) with
       | Some launches =>
           reverse (JS.Array_slice launches
                      (JS.ToIntegerOrInfinity (- default 10%float limit)%float) None)
       | None => []
       end,
     settled s url "Error fetching past SpaceX launches:" "SpaceX API error: " r).
Proof.
  intros limit. unfold getPastSpaceXLaunches.
  run_exchange.
Qed.

Lemma getISROSpacecrafts_run :
  forall w s,
    let url := ISRO_BASE_URL +:+ "/spacecrafts" in
    let r := network w SpacecraftsApi url in
    getISROSpacecrafts w s =
    (Normal (default [] (delivered (outcome r) ≫= spacecrafts)),
     settled s url "Error fetching ISRO spacecrafts:" "ISRO API error: " r).
Proof. unfold getISROSpacecrafts. run_exchange. Qed.

Lemma getISROLaunchVehicles_run :
  forall w s,
    let url := ISRO_BASE_URL +:+ "/launchers" in
    let r := network w LaunchersApi url in
    getISROLaunchVehicles w s =
    (Normal (default [] (delivered (outcome r) ≫= launchers)),
     settled s url "Error fetching ISRO launch vehicles:" "ISRO API error: " r).
Proof. unfold getISROLaunchVehicles. run_exchange. Qed.

Lemma getISROCentres_run :
  forall w s,
    let url := ISRO_BASE_URL +:+ "/centres" in
    let r := network w CentresApi url in
    getISROCentres w s =
    (Normal (default [] (delivered (outcome r) ≫= centres)),
     settled s url "Error fetching ISRO centres:" "ISRO API error: " r).
Proof. unfold getISROCentres. run_exchange. Qed.

Lemma getNasaAPOD_run :
  forall w s,
    let url := apod_url (or_else (process_env w !! "NASA_API_KEY") "DEMO_KEY") in
    let r := network w ApodApi url in
    getNasaAPOD w s =
    (Normal (delivered (outcome r)),
     settled s url "Error fetching NASA APOD:" "NASA API error: " r).
Proof.
  unfold getNasaAPOD, getenv. intros w s. unfold bind at 1. revert w s.
  run_exchange.
Qed.

Lemma getSatellitePosition_configured :
  forall noradId seconds w s,
    truthy (process_env w !! "N2YO_API_KEY") = true ->
    let url := positions_url noradId 0 0 0 (default 1%float seconds)
                 (process_env w !! "N2YO_API_KEY") in
    let r := network w PositionsApi url in
    getSatellitePosition noradId seconds w s =
    (Normal (delivered (outcome r)),
     settled s url "Error fetching satellite position:" "N2YO API error: " r).
Proof.
  intros noradId seconds w s Hkey. unfold getSatellitePosition, getenv.
  unfold bind at 1. rewrite Hkey. cbv [negb]. revert w s Hkey.
  intros w s _. revert w s.
  run_exchange.
Qed.

Lemma getSatellitePosition_unconfigured :
  forall noradId seconds w s,
    truthy (process_env w !! "N2YO_API_KEY") = false ->
    getSatellitePosition noradId seconds w s = (Normal None, unconfigured s).
Proof.
  intros noradId seconds w s Hkey. unfold getSatellitePosition, getenv.
  unfold bind at 1. rewrite Hkey. reflexivity.
Qed.

Lemma getSatellitesAbove_configured :
  forall lat lng searchRadius categoryId w s,
    truthy (process_env w !! "N2YO_API_KEY") = true ->
    let url := above_url (default 28.6139%float lat) (default 77.209%float lng)
                 (default 70%float searchRadius) (default 0%float categoryId)
                 (process_env w !! "N2YO_API_KEY") in
    let r := network w AboveApi url in
    getSatellitesAbove lat lng searchRadius categoryId w s =
    (Normal (delivered (outcome r)),
     settled s url "Error fetching satellites above:" "N2YO API error: " r).
Proof.
  intros lat lng searchRadius categoryId w s Hkey.
  unfold getSatellitesAbove, getenv.
  unfold bind at 1. rewrite Hkey. cbv [negb]. clear Hkey. revert w s.
  run_exchange.
Qed.

Lemma getSatellitesAbove_unconfigured :
  forall lat lng searchRadius categoryId w s,
    truthy (process_env w !! "N2YO_API_KEY") = false ->
    getSatellitesAbove lat lng searchRadius categoryId w s =
    (Normal None, unconfigured s).
Proof.
  intros lat lng searchRadius categoryId w s Hkey.
  unfold getSatellitesAbove, getenv.
  unfold bind at 1. rewrite Hkey. reflexivity.
Qed.

(** ** The runtime model, checked *)

Lemma digits_value_append (a b : string) :
  forall acc, digits_value (a +:+ b) acc = digits_value b (digits_value a acc).
Proof.
  induction a as [|x a IH]; intros acc; [reflexivity|].
  rewrite append_cons. simpl. apply IH.
Qed.

Lemma digit_value (d : N) : (d < 10)%N -> (N_of_ascii (JS.digit d) - 48 = d)%N.
Proof.
  intros Hd. unfold JS.digit. rewrite N_ascii_embedding by lia. lia.
Qed.

Lemma digits_aux_value (fuel : nat) :
  forall n, (n < 2 ^ N.of_nat fuel)%N ->
            digits_value (JS.digits_aux fuel n) 0 = n.
Proof.
  induction fuel as [|fuel IH]; intros n Hn.
  - simpl in Hn. simpl. lia.
  - simpl. destruct (n <? 10)%N eqn:Hsmall.
    + simpl. apply N.ltb_lt in Hsmall. rewrite digit_value by assumption. lia.
    + apply N.ltb_ge in Hsmall.
      rewrite digits_value_append, IH.
      * simpl. rewrite digit_value by (apply N.mod_lt; lia).
        pose proof (N.div_mod n 10). lia.
      * rewrite Nnat.Nat2N.inj_succ, N.pow_succ_r' in Hn.
        apply N.Div0.div_lt_upper_bound. lia.
Qed.

(** [decimal] writes its argument: reading the digits back gives the
    number. *)
Lemma decimal_value (n : N) : digits_value (JS.decimal n) 0 = n.
Proof.
  unfold JS.decimal. apply digits_aux_value.
  rewrite Nnat.Nat2N.inj_succ, Nnat.N2Nat.id.
  destruct n as [|p]; [reflexivity|].
  apply N.log2_spec. lia.
Qed.

Lemma fixed_width_value (w : nat) :
  forall n, digits_value (JS.fixed_width w n) 0 = (n mod 10 ^ N.of_nat w)%N.
Proof.
  induction w as [|w IH]; intros n.
  - simpl. now rewrite N.mod_1_r.
  - cbn [JS.fixed_width]. rewrite digits_value_append, IH. simpl.
    rewrite digit_value by (apply N.mod_lt; lia).
    rewrite Nnat.Nat2N.inj_succ, N.pow_succ_r'.
    rewrite (N.Div0.mod_mul_r n 10 (10 ^ N.of_nat w)). lia.
Qed.

(** [round_scaled] rounds to the nearest multiple of [10^-f], upwards on
    a tie: [n - 1/2 <= m * 2^e * 10^f < n + 1/2]. *)
Lemma round_scaled_spec (m : positive) (e : Z) (f : nat) :
  e < 0 ->
  let n := JS.round_scaled m e f in
  let x := Z.pos m * 10 ^ Z.of_nat f in
  (2 * n - 1) * 2 ^ (- e) <= 2 * x < (2 * n + 1) * 2 ^ (- e).
Proof.
  intros He n x. subst n x. unfold JS.round_scaled.
  replace (0 <=? e) with false by (symmetry; apply Z.leb_gt; lia).
  replace (2 ^ (- e + 1)) with (2 * 2 ^ (- e)) by (rewrite Z.pow_add_r; lia).
  set (x := Z.pos m * 10 ^ Z.of_nat f).
  assert (Hpow : 0 < 2 ^ (- e)) by (apply Z.pow_pos_nonneg; lia).
  set (d := 2 ^ (- e)) in *.
  pose proof (Z.div_mod (2 * x + d) (2 * d) ltac:(lia)) as Hdm.
  pose proof (Z.mod_pos_bound (2 * x + d) (2 * d) ltac:(lia)) as Hmod.
  nia.
Qed.

(** [YearFromDay] is the year that contains the day, over the whole
    range of [Date] (100 million days either side of the epoch). *)
Lemma YearFromDay_spec (d : Z) :
  -100000000 <= d <= 100000000 ->
  JS.DayFromYear (JS.YearFromDay d) <= d < JS.DayFromYear (JS.YearFromDay d + 1).
Proof.
  intros Hd. unfold JS.YearFromDay.
  destruct (Z.leb_spec (JS.DayFromYear (1970 + d * 400 / 146097 + 1)) d) as [H1|H1];
    [|destruct (Z.leb_spec (JS.DayFromYear (1970 + d * 400 / 146097)) d) as [H0|H0]];
    unfold JS.DayFromYear in *; Z.div_mod_to_equations; lia.
Qed.

(** Values of the runtime functions as JavaScript prints them. *)

Example Number_toString_values :
  map JS.Number_toString
    [25544; 0; 1; 70; 28.6139; 77.209; 0.5; -1.5; 0.1 + 0.2;
     1e21; 1e-7; 0.000001; 123456789012345680000; 5e-324;
     1.7976931348623157e308; nan; infinity]%float
  = ["25544"; "0"; "1"; "70"; "28.6139"; "77.209"; "0.5"; "-1.5";
     "0.30000000000000004"; "1e+21"; "1e-7"; "0.000001";
     "123456789012345680000"; "5e-324"; "1.7976931348623157e+308";
     "NaN"; "Infinity"].
Proof. vm_compute. reflexivity. Qed.

Example toFixed_values :
  map (fun x => JS.toFixed x 4)
    [51.5074; -0.1278; 0; -0.00001; 1.00005; 123.456789; 1e21; nan]%float
  = ["51.5074"; "-0.1278"; "0.0000"; "-0.0000"; "1.0001"; "123.4568";
     "1e+21"; "NaN"] /\
  map (fun x => JS.toFixed x 2) [408; 1.005; 10.235; 419.999]%float
  = ["408.00"; "1.00"; "10.23"; "420.00"].
Proof. split; vm_compute; reflexivity. Qed.

Example toISOString_values :
  map (fun t => JS.toISOString (Some t))
    [1700000000000; 0; -1; 951782400000; 8640000000000000; -62198755200000]
  = [inr "2023-11-14T22:13:20.000Z"; inr "1970-01-01T00:00:00.000Z";
     inr "1969-12-31T23:59:59.999Z"; inr "2000-02-29T00:00:00.000Z";
     inr "+275760-09-13T00:00:00.000Z"; inr "-000001-01-01T00:00:00.000Z"] /\
  JS.toISOString None = inl (JS.RangeError "Invalid time value") /\
  JS.TimeClip (1700000000 * 1000)%float = Some 1700000000000 /\
  JS.TimeClip (1e20 * 1000)%float = None /\
  JS.TimeClip nan = None.
Proof. repeat split; vm_compute; reflexivity. Qed.

Example Array_slice_values :
  JS.Array_slice [1; 2; 3; 4; 5] (JS.Integer 0) (Some (JS.ToIntegerOrInfinity 3%float))
    = [1; 2; 3] /\
  JS.Array_slice [1; 2; 3; 4; 5] (JS.ToIntegerOrInfinity (-2)%float) None = [4; 5] /\
  JS.Array_slice [1; 2; 3; 4; 5] (JS.ToIntegerOrInfinity (-0)%float) None
    = [1; 2; 3; 4; 5] /\
  JS.Array_slice [1; 2; 3; 4; 5] (JS.Integer 0) (Some (JS.ToIntegerOrInfinity (-1)%float))
    = [1; 2; 3; 4] /\
  JS.Array_slice [1; 2; 3; 4; 5] (JS.Integer 0) (Some (JS.ToIntegerOrInfinity 2.7%float))
    = [1; 2].
Proof. repeat split; vm_compute; reflexivity. Qed.

(** ** Claims about the clients *)

(** C7: when N2YO_API_KEY is absent from the environment, every call of
    getSatellitePosition and of getSatellitesAbove writes "N2YO_API_KEY
    not set" to the console and returns null at once; it sends no
    request and raises nothing. *)
Theorem C7_missing_satellite_credential :
  forall w s,
    process_env w !! "N2YO_API_KEY" = None ->
    let logged :=
      {| clock := clock s;
         console := console s ++
           [{| logged_at := clock s; message := "N2YO_API_KEY not set";
               detail := None |}];
         requests := requests s |} in
    (forall noradId seconds,
        getSatellitePosition noradId seconds w s = (Normal None, logged)) /\
    (forall lat lng searchRadius categoryId,
        getSatellitesAbove lat lng searchRadius categoryId w s = (Normal None, logged)).
Proof.
  intros w s Hkey logged.
  assert (Hfalsy : truthy (process_env w !! "N2YO_API_KEY") = false)
    by (rewrite Hkey; reflexivity).
  split; intros.
  - now rewrite getSatellitePosition_unconfigured.
  - now rewrite getSatellitesAbove_unconfigured.
Qed.

Lemma C7_witness :
  process_env offline !! "N2YO_API_KEY" = None /\
  (forall noradId seconds,
      getSatellitePosition noradId seconds offline fresh =
      (Normal None,
       {| clock := 0;
          console := [{| logged_at := 0; message := "N2YO_API_KEY not set";
                         detail := None |}];
          requests := [] |})) /\
  (forall lat lng searchRadius categoryId,
      getSatellitesAbove lat lng searchRadius categoryId offline fresh =
      (Normal None,
       {| clock := 0;
          console := [{| logged_at := 0; message := "N2YO_API_KEY not set";
                         detail := None |}];
          requests := [] |})).
Proof.
  split; [reflexivity|].
  exact (C7_missing_satellite_credential offline fresh eq_refl).
Defined.

(** C8: when NASA_API_KEY is absent from the environment, getNasaAPOD
    still sends its request, with the demo credential DEMO_KEY; it
    returns the document of that exchange, and null exactly when the
    exchange failed (no reply, a non-2xx status, or a body that is not
    JSON). *)
Theorem C8_image_credential_fallback :
  forall w s,
    process_env w !! "NASA_API_KEY" = None ->
    let url := "https://api.nasa.gov/planetary/apod?api_key=DEMO_KEY" in
    let reply := outcome (network w ApodApi url) in
    exists result s',
      getNasaAPOD w s = (Normal result, s') /\
      requests s' = requests s ++ [url] /\
      result = delivered reply /\
      (result = None <-> failed reply = true).
Proof.
  intros w s Hkey url reply.
  pose proof (getNasaAPOD_run w s) as Hrun. cbv zeta in Hrun.
  rewrite Hkey in Hrun.
  change (apod_url (or_else None "DEMO_KEY")) with url in Hrun.
  fold reply in Hrun.
  eexists _, _. split; [exact Hrun|].
  split; [reflexivity|]. split; [reflexivity|].
  symmetry. apply failed_delivered.
Qed.

Lemma C8_witness :
  process_env offline !! "NASA_API_KEY" = None /\
  exists result s',
    getNasaAPOD offline fresh = (Normal result, s') /\
    requests s' =
      requests fresh ++ ["https://api.nasa.gov/planetary/apod?api_key=DEMO_KEY"] /\
    result = delivered (outcome (network offline ApodApi
               "https://api.nasa.gov/planetary/apod?api_key=DEMO_KEY")) /\
    (result = None <->
     failed (outcome (network offline ApodApi
               "https://api.nasa.gov/planetary/apod?api_key=DEMO_KEY")) = true).
Proof.
  split; [reflexivity|].
  exact (C8_image_credential_fallback offline fresh eq_refl).
Defined.

Lemma ISS_catalog_number : JS.Number_toString ISS_NORAD_ID = "25544".
Proof. vm_compute. reflexivity. Qed.

Lemma iss_request_url (key : option string) :
  positions_url ISS_NORAD_ID 0 0 0 1 key =
  "https://api.n2yo.com/rest/v1/satellite/positions/25544/0/0/0/1&apiKey="
  +:+ template key.
Proof.
  unfold positions_url.
  replace (JS.Number_toString ISS_NORAD_ID) with "25544"
    by (vm_compute; reflexivity).
  replace (JS.Number_toString 0) with "0" by (vm_compute; reflexivity).
  replace (JS.Number_toString 1) with "1" by (vm_compute; reflexivity).
  reflexivity.
Qed.

(** C10: getISSPosition asks getSatellitePosition for catalog number
    25544 (one second, the default observer) and returns the first
    element of the positions it gets; it returns null when the fetch gave
    null, and also when the document has no positions member or an empty
    one, so the two cases cannot be told apart by the caller. *)
Theorem C10_iss_position :
  (forall key,
      positions_url ISS_NORAD_ID 0 0 0 1 key =
      "https://api.n2yo.com/rest/v1/satellite/positions/25544/0/0/0/1&apiKey="
      +:+ template key) /\
  (forall w s, exists fetched s',
      getSatellitePosition 25544 None w s = (Normal fetched, s') /\
      getISSPosition w s = (Normal (first_position fetched), s') /\
      (truthy (process_env w !! "N2YO_API_KEY") = true ->
       fetched = delivered (outcome (network w PositionsApi
                   (positions_url 25544 0 0 0 1 (process_env w !! "N2YO_API_KEY")))))) /\
  first_position None = None /\
  (forall i, first_position (Some {| info := i; positions := None |}) = None) /\
  (forall i, first_position (Some {| info := i; positions := Some [] |}) = None) /\
  (forall i p rest,
      first_position (Some {| info := i; positions := Some (p :: rest) |}) = Some p) /\
  fst (getISSPosition n2yo_down fresh) = Normal None /\
  fst (getISSPosition no_positions fresh) = Normal None.
Proof.
  split; [exact iss_request_url|].
  split.
  { intros w s. unfold getISSPosition. unfold bind at 1.
    destruct (truthy (process_env w !! "N2YO_API_KEY")) eqn:Hkey.
    - pose proof (getSatellitePosition_configured ISS_NORAD_ID None w s Hkey) as Hrun.
      cbv zeta in Hrun. change ISS_NORAD_ID with 25544%float in *.
      rewrite Hrun. eexists _, _. repeat split; reflexivity.
    - pose proof (getSatellitePosition_unconfigured ISS_NORAD_ID None w s Hkey) as Hrun.
      change ISS_NORAD_ID with 25544%float in *.
      rewrite Hrun. eexists _, _. repeat split; try reflexivity. discriminate. }
  repeat split; vm_compute; reflexivity.
Qed.

Ltac absent_when_failed :=
  let Hf := fresh "Hf" in
  intros Hf; apply failed_delivered in Hf;
  cbn [Payload] in Hf |- *; rewrite Hf; reflexivity.

(** C2: no client raises, whatever the network does: every call of every
    client completes normally, and when its exchange failed (no reply, a
    status outside 200-299, or a body that is not JSON) the value it
    returns is the "no data" value, null or the empty list. *)
Theorem C2_clients_never_throw :
  forall (p : Provider) (w : World) (s : Effects),
    exists (v : Result p) (s' : Effects),
      call p w s = (Normal v, s') /\
      (transport_failed p w = true -> v = Absent p).
Proof.
  intros p w s.
  destruct p; simpl call; simpl transport_failed; simpl Absent.
  - destruct (truthy (process_env w !! "N2YO_API_KEY")) eqn:Hkey.
    + rewrite getSatellitePosition_configured by assumption.
      eexists _, _. split; [reflexivity|]. apply failed_delivered.
    + rewrite getSatellitePosition_unconfigured by assumption.
      eexists _, _. split; reflexivity.
  - destruct (truthy (process_env w !! "N2YO_API_KEY")) eqn:Hkey.
    + rewrite getSatellitesAbove_configured by assumption.
      eexists _, _. split; [reflexivity|]. apply failed_delivered.
    + rewrite getSatellitesAbove_unconfigured by assumption.
      eexists _, _. split; reflexivity.
  - unfold getISSPosition. unfold bind at 1.
    destruct (truthy (process_env w !! "N2YO_API_KEY")) eqn:Hkey.
    + rewrite getSatellitePosition_configured by assumption.
      eexists _, _. split; [reflexivity|].
      intros Hf. apply failed_delivered in Hf.
      exact (f_equal first_position Hf).
    + rewrite getSatellitePosition_unconfigured by assumption.
      eexists _, _. split; reflexivity.
  - rewrite getLatestSpaceXLaunch_run.
    eexists _, _. split; [reflexivity|]. apply failed_delivered.
  - rewrite getUpcomingSpaceXLaunches_run.
    eexists _, _. split; [reflexivity|].
    absent_when_failed.
  - rewrite getSpaceXRockets_run.
    eexists _, _. split; [reflexivity|].
    absent_when_failed.
  - rewrite getPastSpaceXLaunches_run.
    eexists _, _. split; [reflexivity|].
    absent_when_failed.
  - rewrite getISROSpacecrafts_run.
    eexists _, _. split; [reflexivity|].
    absent_when_failed.
  - rewrite getISROLaunchVehicles_run.
    eexists _, _. split; [reflexivity|].
    absent_when_failed.
  - rewrite getISROCentres_run.
    eexists _, _. split; [reflexivity|].
    absent_when_failed.
  - rewrite getNasaAPOD_run.
    eexists _, _. split; [reflexivity|]. apply failed_delivered.
Qed.

(** ** Launch lists: slices and their order *)

Section Chains.
Context {A : Type} (R : A -> A -> bool).

Lemma chain_tail (a : A) (l : list A) :
  chain R (a :: l) = true -> chain R l = true.
Proof.
  destruct l as [|b l]; [reflexivity|].
  simpl. intros H. apply andb_true_iff in H. tauto.
Qed.

Lemma chain_drop (n : nat) (l : list A) :
  chain R l = true -> chain R (drop n l) = true.
Proof.
  revert l. induction n as [|n IH]; intros l H; [now rewrite drop_0|].
  destruct l as [|a l]; [reflexivity|].
  simpl. apply IH. now apply chain_tail with a.
Qed.

Lemma chain_take (n : nat) (l : list A) :
  chain R l = true -> chain R (take n l) = true.
Proof.
  revert n. induction l as [|a l IH]; intros n H.
  - now destruct n.
  - destruct n as [|n]; [reflexivity|].
    destruct l as [|b l]; [now destruct n|].
    destruct n as [|n]; [reflexivity|].
    simpl in H. apply andb_true_iff in H. destruct H as [Hab Hrest].
    change (R a b && chain R (take (S n) (b :: l)) = true).
    rewrite Hab. simpl. exact (IH (S n) Hrest).
Qed.

Lemma chain_snoc (l : list A) (x : A) :
  chain R (l ++ [x]) =
  chain R l && match last l with Some y => R y x | None => true end.
Proof.
  induction l as [|a l IH]; [reflexivity|].
  destruct l as [|b l].
  - simpl. now rewrite andb_true_r.
  - change (R a b && chain R ((b :: l) ++ [x]) =
            (R a b && chain R (b :: l)) &&
            match last (b :: l) with Some y => R y x | None => true end).
    rewrite IH. now rewrite andb_assoc.
Qed.
End Chains.

Lemma chain_reverse {A : Type} (R : A -> A -> bool) (l : list A) :
  chain R l = true -> chain (fun a b => R b a) (reverse l) = true.
Proof.
  induction l as [|a l IH]; intros H; [reflexivity|].
  rewrite reverse_cons, chain_snoc, last_reverse.
  rewrite IH by (now apply chain_tail with a).
  destruct l as [|b l]; [reflexivity|].
  simpl in H. apply andb_true_iff in H. simpl. tauto.
Qed.

Lemma slice_prefix {A : Type} (l : list A) (n : nat) :
  JS.Array_slice l (JS.Integer 0) (Some (JS.Integer (Z.of_nat n))) = take n l.
Proof.
  unfold JS.Array_slice, JS.relative_index.
  replace (0 <? 0) with false by reflexivity.
  replace (Z.of_nat n <? 0) with false by (symmetry; apply Z.ltb_ge; lia).
  replace (Z.to_nat (Z.min 0 (Z.of_nat (length l)))) with 0%nat by lia.
  rewrite drop_0.
  destruct (Nat.le_ge_cases n (length l)) as [Hle | Hge].
  - f_equal. lia.
  - rewrite (take_ge l n) by lia. apply take_ge. lia.
Qed.

Lemma slice_suffix {A : Type} (l : list A) (n : nat) :
  (1 <= n)%nat ->
  JS.Array_slice l (JS.Integer (- Z.of_nat n)) None = drop (length l - n) l.
Proof.
  intros Hn. unfold JS.Array_slice, JS.relative_index.
  replace (- Z.of_nat n <? 0) with true by (symmetry; apply Z.ltb_lt; lia).
  replace (Z.to_nat (Z.max (Z.of_nat (length l) + - Z.of_nat n) 0))
    with (length l - n)%nat by lia.
  apply take_ge. rewrite length_drop. lia.
Qed.

Lemma ToIntegerOrInfinity_opp (x : float) (z : Z) :
  JS.ToIntegerOrInfinity x = JS.Integer z ->
  JS.ToIntegerOrInfinity (- x)%float = JS.Integer (- z).
Proof.
  unfold JS.ToIntegerOrInfinity. rewrite opp_spec.
  destruct (Prim2SF x) as [sgn | sgn | | sgn m e]; simpl.
  - intros [= <-]. reflexivity.
  - destruct sgn; discriminate.
  - intros [= <-]. reflexivity.
  - destruct sgn; simpl; intros [= <-]; f_equal; lia.
Qed.

(** What the code does at limit 0: [slice(-0)] is [slice(0)], the whole
    list. *)
Remark past_launches_limit_zero :
  fst (getPastSpaceXLaunches (Some 0%float) unsorted_feed fresh)
  = Normal [falconsat; sooner; later].
Proof. vm_compute. reflexivity. Qed.

(** C6, as the code has it: the launch clients neither filter nor sort;
    they cut the list the service sent.  For a limit whose integer part
    is n >= 0, getUpcomingSpaceXLaunches returns the first n launches
    fetched, in the order fetched (so at most n, and in ascending date
    order whenever the service sent them so).  For n >= 1,
    getPastSpaceXLaunches returns the last n launches fetched, reversed
    (so at most n, the last one fetched first, and in descending date
    order whenever the service sent them ascending). *)
Theorem C6_launch_lists_are_slices :
  forall (w : World) (s : Effects) (limit : float) (n : nat)
         (coming gone : list SpaceXLaunch),
    JS.ToIntegerOrInfinity limit = JS.Integer (Z.of_nat n) ->
    delivered (outcome (network w LaunchesApi
      "https://api.spacexdata.com/v4/launches/upcoming")) = Some coming ->
    delivered (outcome (network w LaunchesApi
      "https://api.spacexdata.com/v4/launches/past")) = Some gone ->
    (fst (getUpcomingSpaceXLaunches (Some limit) w s) = Normal (take n coming) /\
     (length (take n coming) <= n)%nat /\
     (ascending coming = true -> ascending (take n coming) = true)) /\
    ((1 <= n)%nat ->
     let recent := reverse (drop (length gone - n) gone) in
     fst (getPastSpaceXLaunches (Some limit) w s) = Normal recent /\
     (length recent <= n)%nat /\
     head recent = last gone /\
     (ascending gone = true -> descending recent = true)).
Proof.
  intros w s limit n coming gone Hlimit Hcoming Hgone. split.
  - rewrite getUpcomingSpaceXLaunches_run. cbn [fst default from_option id].
    change (SPACEX_BASE_URL +:+ "/launches/upcoming")
      with "https://api.spacexdata.com/v4/launches/upcoming".
    cbn [Payload] in Hcoming |- *. rewrite Hcoming, Hlimit, slice_prefix.
    split; [reflexivity|]. split.
    + rewrite length_take. lia.
    + apply chain_take.
  - intros Hn recent.
    rewrite getPastSpaceXLaunches_run. cbn [fst default from_option id].
    change (SPACEX_BASE_URL +:+ "/launches/past")
      with "https://api.spacexdata.com/v4/launches/past".
    cbn [Payload] in Hgone |- *.
    rewrite Hgone, (ToIntegerOrInfinity_opp limit _ Hlimit), slice_suffix by exact Hn.
    split; [reflexivity|]. split; [|split].
    + unfold recent. rewrite length_reverse, length_drop. lia.
    + unfold recent. rewrite head_reverse.
      destruct (decide (length gone = 0)%nat) as [Hz | Hnz].
      * destruct gone; [reflexivity | discriminate].
      * transitivity (last (take (length gone - n) gone ++
                            drop (length gone - n) gone));
          [|now rewrite take_drop].
        rewrite last_app.
        destruct (last (drop (length gone - n) gone)) eqn:Hlast; [reflexivity|].
        apply last_None in Hlast.
        apply (f_equal length) in Hlast. rewrite length_drop in Hlast.
        simpl in Hlast. lia.
    + intros Hasc. unfold recent, descending.
      apply (chain_reverse not_after). now apply chain_drop.
Qed.

Lemma C6_witness :
  JS.ToIntegerOrInfinity 1%float = JS.Integer (Z.of_nat 1) /\
  ascending [sooner; later] = true /\
  fst (getUpcomingSpaceXLaunches (Some 1%float) sorted_feed fresh) = Normal [sooner] /\
  fst (getPastSpaceXLaunches (Some 1%float) sorted_feed fresh) = Normal [later].
Proof.
  destruct (C6_launch_lists_are_slices sorted_feed fresh 1%float 1
              [sooner; later] [sooner; later] eq_refl eq_refl eq_refl)
    as [[Hup _] Hpast].
  split; [reflexivity|]. split; [reflexivity|].
  split; [exact Hup|]. exact (proj1 (Hpast (le_n 1))).
Defined.

(** C6 as stated fails: the service sends three launches, the latest
    first and one of 2006 last; getUpcomingSpaceXLaunches(5) returns them
    as sent: not in ascending date order, and with the launch of 2006
    among them. *)
Lemma C6_counterexample :
  delivered (outcome (network unsorted_feed LaunchesApi
    "https://api.spacexdata.com/v4/launches/upcoming"))
    = Some [later; sooner; falconsat] /\
  fst (getUpcomingSpaceXLaunches (Some 5%float) unsorted_feed fresh)
    = Normal [later; sooner; falconsat] /\
  ascending [later; sooner; falconsat] = false /\
  date_utc falconsat = "2006-03-24T22:30:00.000Z".
Proof. repeat split; vm_compute; reflexivity. Qed.

(** ** Runs of the aggregator *)

Lemma evaluates_ret {A : Type} (a : A) (w : World) : evaluates (ret a) w a.
Proof. intros s. reflexivity. Qed.

Lemma evaluates_bind {A B : Type} (m : M A) (f : A -> M B) (w : World) (a : A) (b : B) :
  evaluates m w a -> evaluates (f a) w b -> evaluates (bind m f) w b.
Proof. intros Hm Hf s. unfold bind. rewrite Hm. apply Hf. Qed.

Lemma evaluates_locale (d : string) (w : World) :
  evaluates (Date_toLocaleDateString d) w (toLocaleDateString w d).
Proof. intros s. reflexivity. Qed.

Lemma evaluates_forEach_upcoming (w : World) (ls : list SpaceXLaunch) :
  forall i context,
    evaluates (forEach_upcoming i ls context) w (context +:+ upcoming_lines w i ls).
Proof.
  induction ls as [|l rest IH]; intros i context s.
  - simpl. now rewrite append_empty_r.
  - simpl. unfold bind, Date_toLocaleDateString.
    rewrite IH. now rewrite append_assoc.
Qed.

Lemma runs_value {A : Type} (m : M A) (w : World) (v v' : A) wait reqs :
  runs m w v wait reqs -> v = v' -> runs m w v' wait reqs.
Proof. now intros H <-. Qed.

Lemma runs_then {A B : Type} (m : M A) (f : A -> M B) (w : World)
    (a : A) (b : B) wait reqs :
  runs m w a wait reqs -> evaluates (f a) w b -> runs (bind m f) w b wait reqs.
Proof.
  intros Hm Hf s. destruct (Hm s) as (s' & Hrun & Hclock & Hreqs).
  exists s'. unfold bind. rewrite Hrun, Hf. auto.
Qed.

Lemma raises_then {A B : Type} (m : M A) (f : A -> M B) (w : World)
    (a : A) (e : JS.Error) wait reqs :
  runs m w a wait reqs -> (forall s, f a w s = (Throw e, s)) ->
  raises (bind m f) w e wait reqs.
Proof.
  intros Hm Hf s. destruct (Hm s) as (s' & Hrun & Hclock & Hreqs).
  exists s'. unfold bind. rewrite Hrun, Hf. auto.
Qed.

Lemma runs_try {A : Type} (body : M A) (handler : JS.Error -> M A) (w : World)
    (v : A) wait reqs :
  runs body w v wait reqs -> runs (try_catch body handler) w v wait reqs.
Proof.
  intros Hm s. destruct (Hm s) as (s' & Hrun & Hclock & Hreqs).
  exists s'. unfold try_catch. rewrite Hrun. auto.
Qed.

Lemma runs_catch {A : Type} (body : M A) (handler : JS.Error -> M A) (w : World)
    (e : JS.Error) (v : A) wait reqs :
  raises body w e wait reqs -> runs (handler e) w v 0 [] ->
  runs (try_catch body handler) w v wait reqs.
Proof.
  intros Hm Hh s. destruct (Hm s) as (s' & Hrun & Hclock & Hreqs).
  destruct (Hh s') as (s'' & Hrun' & Hclock' & Hreqs').
  exists s''. unfold try_catch. rewrite Hrun, Hrun'.
  split; [reflexivity|]. split.
  - rewrite Hclock', Hclock. lia.
  - rewrite Hreqs', Hreqs. now rewrite app_nil_r.
Qed.

Lemma runs_both {A B : Type} (pa : M A) (pb : M B) (w : World)
    (a : A) (b : B) da db ra rb :
  runs pa w a da ra -> runs pb w b db rb ->
  runs (both pa pb) w (a, b) (N.max da db) (ra ++ rb).
Proof.
  intros Ha Hb s. unfold both.
  destruct (Ha {| clock := clock s; console := []; requests := [] |})
    as (ea & Hra & Hca & Hqa).
  destruct (Hb {| clock := clock s; console := []; requests := [] |})
    as (eb & Hrb & Hcb & Hqb).
  rewrite Hra, Hrb. eexists. split; [reflexivity|]. simpl in *. split.
  - rewrite Hca, Hcb. lia.
  - now rewrite Hqa, Hqb.
Qed.

Lemma settled_clock s url msg prefix {T : Type} (r : Reply T) :
  clock (settled s url msg prefix r) = (clock s + latency r)%N.
Proof. reflexivity. Qed.

Lemma settled_requests s url msg prefix {T : Type} (r : Reply T) :
  requests (settled s url msg prefix r) = requests s ++ [url].
Proof. reflexivity. Qed.

Lemma getISSPosition_runs (w : World) :
  runs getISSPosition w (iss_of w) (iss_wait w) (iss_requests w).
Proof.
  intros s. unfold getISSPosition, iss_of, iss_wait, iss_requests, n2yo_key.
  unfold bind at 1.
  destruct (truthy (process_env w !! "N2YO_API_KEY")) eqn:Hkey.
  - rewrite getSatellitePosition_configured by assumption.
    eexists. split; [reflexivity|]. split; reflexivity.
  - rewrite getSatellitePosition_unconfigured by assumption.
    eexists. split; [reflexivity|]. simpl. split; [lia|].
    now rewrite app_nil_r.
Qed.

Lemma getLatestSpaceXLaunch_runs (w : World) :
  runs getLatestSpaceXLaunch w (latest_of w) (latest_wait w) [latest_url].
Proof.
  intros s. rewrite getLatestSpaceXLaunch_run.
  eexists. split; [reflexivity|]. split; reflexivity.
Qed.

Lemma getUpcomingSpaceXLaunches_runs (w : World) :
  runs (getUpcomingSpaceXLaunches (Some 3%float)) w
    (upcoming_of w) (upcoming_wait w) [upcoming_url].
Proof.
  intros s. rewrite getUpcomingSpaceXLaunches_run.
  eexists. split; [reflexivity|]. split; reflexivity.
Qed.

Lemma getNasaAPOD_runs (w : World) :
  runs getNasaAPOD w (apod_of w) (apod_wait w) [nasa_url w].
Proof.
  intros s. rewrite getNasaAPOD_run.
  eexists. split; [reflexivity|]. split; reflexivity.
Qed.

Create HintDb runs.
#[local] Hint Resolve getISSPosition_runs getLatestSpaceXLaunch_runs
  getUpcomingSpaceXLaunches_runs getNasaAPOD_runs runs_both : runs.

Lemma fan_out_runs (w : World) :
  runs (Promise_all4 getISSPosition getLatestSpaceXLaunch
          (getUpcomingSpaceXLaunches (Some 3%float)) getNasaAPOD) w
    (iss_of w, latest_of w, upcoming_of w, apod_of w)
    (fan_out_wait w) (fan_out_requests w).
Proof.
  unfold Promise_all4, fan_out_wait.
  change (fan_out_requests w)
    with (iss_requests w ++ [latest_url] ++ [upcoming_url] ++ [nasa_url w]).
  apply (runs_then _ _ w (iss_of w, (latest_of w, (upcoming_of w, apod_of w)))).
  - auto with runs.
  - apply evaluates_ret.
Qed.

Lemma evaluates_value {A : Type} (m : M A) (w : World) (v v' : A) :
  evaluates m w v -> v = v' -> evaluates m w v'.
Proof. now intros H <-. Qed.

Lemma sections_left_to_right w iss latest upcoming apod :
  (((context_header +:+ iss_part iss) +:+ latest_part w latest) +:+
   upcoming_part w upcoming) +:+ apod_part apod
  = sections_in_priority_order w iss latest upcoming apod.
Proof. unfold sections_in_priority_order. now rewrite !append_assoc. Qed.

(** The aggregator, run: its value, its duration and its requests in
    terms of the world. *)
Lemma getSpaceContext_runs (w : World) :
  runs getSpaceContext w
    (if valid_instant (iss_of w)
     then sections_in_priority_order w
            (iss_of w) (latest_of w) (upcoming_of w) (apod_of w)
     else EmptyString)
    (fan_out_wait w) (fan_out_requests w).
Proof.
  unfold getSpaceContext.
  destruct (valid_instant (iss_of w)) eqn:Hvalid.
  - apply runs_try. eapply runs_then; [apply fan_out_runs|].
    cbv beta iota.
    revert Hvalid.
    generalize (iss_of w) as iss, (latest_of w) as latest,
      (upcoming_of w) as coming, (apod_of w) as apod.
    intros iss latest coming apod Hvalid.
    apply (evaluates_bind _ _ w (context_header +:+ iss_part iss)).
    { destruct iss as [p|]; cbn [iss_part].
      - unfold valid_instant in Hvalid.
        destruct (JS.TimeClip (timestamp p * 1000)%float) as [t|]; [|discriminate].
        intros s. reflexivity.
      - intros s. now rewrite append_empty_r. }
    apply (evaluates_bind _ _ w
             ((context_header +:+ iss_part iss) +:+ latest_part w latest)).
    { destruct latest as [l|]; cbn [latest_part].
      - intros s. reflexivity.
      - intros s. now rewrite append_empty_r. }
    apply (evaluates_bind _ _ w
             (((context_header +:+ iss_part iss) +:+ latest_part w latest)
              +:+ upcoming_part w coming)).
    { destruct coming as [|l rest].
      - intros s. cbn [upcoming_part]. now rewrite append_empty_r.
      - cbn [length Nat.ltb Nat.leb upcoming_part].
        eapply evaluates_value; [apply evaluates_forEach_upcoming|].
        now rewrite !append_assoc. }
    eapply evaluates_value; [apply evaluates_ret|].
    rewrite <- sections_left_to_right.
    destruct apod as [a|]; cbn [apod_part]; [reflexivity|].
    now rewrite append_empty_r.
  - assert (Hbad : exists p, iss_of w = Some p /\
                     JS.TimeClip (timestamp p * 1000)%float = None).
    { unfold valid_instant in Hvalid. destruct (iss_of w) as [p|]; [|discriminate].
      exists p. split; [reflexivity|].
      destruct (JS.TimeClip (timestamp p * 1000)%float); [discriminate|reflexivity]. }
    destruct Hbad as (p & Hiss & Hclip).
    apply runs_catch with (e := JS.RangeError "Invalid time value").
    + eapply raises_then; [apply fan_out_runs|].
      intros s. cbv beta iota. rewrite Hiss.
      unfold bind at 1. unfold bind at 1. rewrite Hclip. reflexivity.
    + intros s. eexists. split; [reflexivity|]. simpl. split; [lia|].
      now rewrite app_nil_r.
Qed.

(** ** Results of the aggregator and of its calls *)

Lemma runs_fst {A : Type} (m : M A) (w : World) (v : A) wait reqs (s : Effects) :
  runs m w v wait reqs -> fst (m w s) = Normal v.
Proof. intros H. destruct (H s) as (s' & -> & _). reflexivity. Qed.

Lemma runs_result {A : Type} (m : M A) (w : World) (v v' : A) wait reqs (s : Effects) :
  runs m w v wait reqs -> fst (m w s) = Normal v' -> v' = v.
Proof. intros H. rewrite (runs_fst m w v wait reqs s H). now intros [= ->]. Qed.

Lemma POST_run {UIMessages ModelMessages : Type}
    (convert : UIMessages -> JS.Error + ModelMessages)
    (w : World) (s s' : Effects) (ctx : string) (msgs : UIMessages) :
  getSpaceContext w s = (Normal ctx, s') ->
  POST convert (Json (Members msgs)) w s =
  (handed_over (enhancedSystemPrompt ctx) (convert msgs), s').
Proof.
  intros H. unfold POST, parse, destructure. unfold bind at 1. cbn [ret].
  unfold bind at 1. cbn [ret]. unfold bind at 1. rewrite H.
  unfold bind, handed_over. destruct (convert msgs); reflexivity.
Qed.

(** A request that the route cannot read is refused before anything is
    sent or written. *)
Lemma POST_unreadable {UIMessages ModelMessages : Type}
    (convert : UIMessages -> JS.Error + ModelMessages) (w : World) (s : Effects) :
  (forall reason,
      POST convert (Malformed reason) w s = (Throw (JS.SyntaxError reason), s)) /\
  (forall reason,
      POST convert (Json (NullDocument reason)) w s = (Throw (JS.TypeError reason), s)).
Proof. split; reflexivity. Qed.

(** The outcome of the route does not depend on the state it starts
    in. *)
Lemma POST_fst {UIMessages ModelMessages : Type}
    (convert : UIMessages -> JS.Error + ModelMessages)
    (req : Body (RequestDocument UIMessages)) (w : World) (s : Effects) :
  fst (POST convert req w s) =
  match req with
  | Malformed reason => Throw (JS.SyntaxError reason)
  | Json (NullDocument reason) => Throw (JS.TypeError reason)
  | Json (Members msgs) =>
      match fst (getSpaceContext w s) with
      | Normal ctx => handed_over (enhancedSystemPrompt ctx) (convert msgs)
      | Throw e => Throw e
      end
  end.
Proof.
  destruct req as [reason|[reason|msgs]]; [reflexivity|reflexivity|].
  destruct (getSpaceContext w s) as [[ctx|e] s'] eqn:Hrun.
  - now rewrite (POST_run convert w s s' ctx msgs Hrun).
  - unfold POST, parse, destructure. unfold bind at 1. cbn [ret].
    unfold bind at 1. cbn [ret]. unfold bind at 1. now rewrite Hrun.
Qed.

Lemma upcoming_lines_same (w1 w2 : World) (ls : list SpaceXLaunch) :
  (forall d, toLocaleDateString w1 d = toLocaleDateString w2 d) ->
  forall i, upcoming_lines w1 i ls = upcoming_lines w2 i ls.
Proof.
  intros Hd. induction ls as [|l rest IH]; intros i; [reflexivity|].
  simpl. now rewrite Hd, IH.
Qed.

(** The value of the aggregator depends on the replies, never on how
    long they took. *)
Lemma same_upstream_context (w1 w2 : World) (s1 s2 : Effects) :
  same_upstream w1 w2 ->
  fst (getSpaceContext w1 s1) = fst (getSpaceContext w2 s2).
Proof.
  intros (Henv & Hnet & Hdate).
  rewrite (runs_fst _ _ _ _ _ s1 (getSpaceContext_runs w1)).
  rewrite (runs_fst _ _ _ _ _ s2 (getSpaceContext_runs w2)).
  assert (Hiss : iss_of w1 = iss_of w2).
  { unfold iss_of, iss_url, n2yo_key. now rewrite Henv, Hnet. }
  assert (Hlatest : latest_of w1 = latest_of w2).
  { unfold latest_of. now rewrite Hnet. }
  assert (Hcoming : upcoming_of w1 = upcoming_of w2).
  { unfold upcoming_of. now rewrite Hnet. }
  assert (Hapod : apod_of w1 = apod_of w2).
  { unfold apod_of, nasa_url. now rewrite Henv, Hnet. }
  rewrite Hiss, Hlatest, Hcoming, Hapod.
  destruct (valid_instant (iss_of w2)); [|reflexivity].
  f_equal. unfold sections_in_priority_order, latest_part, upcoming_part.
  destruct (latest_of w2); destruct (upcoming_of w2);
    rewrite ?Hdate, ?(upcoming_lines_same w1 w2 _ Hdate); reflexivity.
Qed.

(** ** Claims about the aggregator and the composed instruction *)

(** C1, as the code has it: when all four calls of the aggregator return
    "no data" (null, null, the empty list, null), getSpaceContext returns
    the header line of the data block (two line feeds, the title, a line
    feed: 61 bytes, not the empty string), and the instruction that POST
    composes is the policy text followed by that header, which differs
    from the policy text.  POST hands this instruction to the engine with
    the converted messages; when the conversion of the messages throws,
    POST throws the same error and nothing is handed over. *)
Theorem C1_all_absent_leaves_the_header :
  forall (w : World) (s : Effects),
    fst (getISSPosition w s) = Normal None ->
    fst (getLatestSpaceXLaunch w s) = Normal None ->
    fst (getUpcomingSpaceXLaunches (Some 3%float) w s) = Normal [] ->
    fst (getNasaAPOD w s) = Normal None ->
    fst (getSpaceContext w s) = Normal context_header /\
    context_header =
      String "010" (String "010"
        ("## REAL-TIME SPACE DATA (Use this for accurate responses):"
         +:+ String "010" EmptyString)) /\
    String.eqb (enhancedSystemPrompt context_header) ATHEY_SYSTEM_PROMPT = false /\
    forall (UIMessages ModelMessages : Type)
           (convertToModelMessages : UIMessages -> JS.Error + ModelMessages)
           (msgs : UIMessages),
      fst (POST convertToModelMessages (Json (Members msgs)) w s) =
      match convertToModelMessages msgs with
      | inr converted =>
          Normal {| model := "gemini-2.5-flash";
                    system := ATHEY_SYSTEM_PROMPT +:+ context_header;
                    messages := converted |}
      | inl e => Throw e
      end.
Proof.
  intros w s Hiss Hlatest Hcoming Hapod.
  apply (runs_result _ _ _ _ _ _ _ (getISSPosition_runs w)) in Hiss.
  apply (runs_result _ _ _ _ _ _ _ (getLatestSpaceXLaunch_runs w)) in Hlatest.
  apply (runs_result _ _ _ _ _ _ _ (getUpcomingSpaceXLaunches_runs w)) in Hcoming.
  apply (runs_result _ _ _ _ _ _ _ (getNasaAPOD_runs w)) in Hapod.
  destruct (getSpaceContext_runs w s) as (s' & Hrun & _).
  rewrite <- Hiss, <- Hlatest, <- Hcoming, <- Hapod in Hrun.
  change (getSpaceContext w s = (Normal context_header, s')) in Hrun.
  split; [now rewrite Hrun|].
  split; [reflexivity|]. split; [vm_compute; reflexivity|].
  intros UIMessages ModelMessages convert msgs.
  now rewrite (POST_run convert w s s' _ msgs Hrun).
Qed.

Lemma C1_witness :
  fst (getISSPosition offline fresh) = Normal None /\
  fst (getLatestSpaceXLaunch offline fresh) = Normal None /\
  fst (getUpcomingSpaceXLaunches (Some 3%float) offline fresh) = Normal [] /\
  fst (getNasaAPOD offline fresh) = Normal None /\
  fst (getSpaceContext offline fresh) = Normal context_header /\
  context_header =
    String "010" (String "010"
      ("## REAL-TIME SPACE DATA (Use this for accurate responses):"
       +:+ String "010" EmptyString)) /\
  String.eqb (enhancedSystemPrompt context_header) ATHEY_SYSTEM_PROMPT = false /\
  forall (UIMessages ModelMessages : Type)
         (convertToModelMessages : UIMessages -> JS.Error + ModelMessages)
         (msgs : UIMessages),
    fst (POST convertToModelMessages (Json (Members msgs)) offline fresh) =
    match convertToModelMessages msgs with
    | inr converted =>
        Normal {| model := "gemini-2.5-flash";
                  system := ATHEY_SYSTEM_PROMPT +:+ context_header;
                  messages := converted |}
    | inl e => Throw e
    end.
Proof.
  split; [reflexivity|]. split; [reflexivity|].
  split; [reflexivity|]. split; [reflexivity|].
  exact (C1_all_absent_leaves_the_header offline fresh
           eq_refl eq_refl eq_refl eq_refl).
Defined.

(** C1 as stated fails: with no credential and no network all four calls
    return "no data", yet the context returned is the header line (61
    bytes, not empty) and the instruction differs from the policy text:
    whatever the messages are and however they are converted, POST never
    hands the engine the policy text alone. *)
Lemma C1_counterexample :
  fst (getISSPosition offline fresh) = Normal None /\
  fst (getLatestSpaceXLaunch offline fresh) = Normal None /\
  fst (getUpcomingSpaceXLaunches (Some 3%float) offline fresh) = Normal [] /\
  fst (getNasaAPOD offline fresh) = Normal None /\
  fst (getSpaceContext offline fresh) = Normal context_header /\
  String.length context_header = 61%nat /\
  String.eqb (enhancedSystemPrompt context_header) ATHEY_SYSTEM_PROMPT = false /\
  (forall (UIMessages ModelMessages : Type)
          (convertToModelMessages : UIMessages -> JS.Error + ModelMessages)
          (msgs : UIMessages),
      match fst (POST convertToModelMessages (Json (Members msgs)) offline fresh) with
      | Normal call => String.eqb (system call) ATHEY_SYSTEM_PROMPT
      | Throw _ => false
      end = false) /\
  (forall (UIMessages ModelMessages : Type)
          (convertToModelMessages : UIMessages -> JS.Error + ModelMessages)
          (msgs : UIMessages) (converted : ModelMessages),
      convertToModelMessages msgs = inr converted ->
      exists call : StreamTextCall ModelMessages,
        fst (POST convertToModelMessages (Json (Members msgs)) offline fresh)
          = Normal call /\
        String.eqb (system call) ATHEY_SYSTEM_PROMPT = false).
Proof.
  assert (Hrun : exists s', getSpaceContext offline fresh = (Normal context_header, s'))
    by (eexists; vm_compute; reflexivity).
  destruct Hrun as [s' Hrun].
  assert (Hdiffers :
            String.eqb (enhancedSystemPrompt context_header) ATHEY_SYSTEM_PROMPT = false)
    by (vm_compute; reflexivity).
  do 7 (split; [vm_compute; reflexivity|]). split.
  - intros UIMessages ModelMessages convert msgs.
    rewrite (POST_run convert offline fresh s' _ msgs Hrun). cbn [fst].
    unfold handed_over. destruct (convert msgs); [reflexivity|exact Hdiffers].
  - intros UIMessages ModelMessages convert msgs converted Hconverted.
    rewrite (POST_run convert offline fresh s' _ msgs Hrun). cbn [fst].
    unfold handed_over. rewrite Hconverted. eexists. split; [reflexivity|exact Hdiffers].
Qed.

(** C3, as the code has it: the fan-out has no deadline.  The four calls
    start together, each sends at most one request (none is repeated),
    and getSpaceContext returns when the slowest of them has settled,
    however long that takes; what it returns depends on the replies only,
    not on how long they took, so a slow provider is as present as a
    prompt one. *)
Theorem C3_fan_out_waits_for_the_slowest :
  forall (w : World) (s : Effects),
    exists (context : string) (s' : Effects),
      getSpaceContext w s = (Normal context, s') /\
      clock s' =
        (clock s +
         N.max (iss_wait w)
           (N.max (latest_wait w) (N.max (upcoming_wait w) (apod_wait w))))%N /\
      requests s' =
        requests s ++ iss_requests w ++ [latest_url; upcoming_url; nasa_url w] /\
      forall (w' : World) (s0 : Effects),
        same_upstream w w' -> fst (getSpaceContext w' s0) = Normal context.
Proof.
  intros w s. destruct (getSpaceContext_runs w s) as (s' & Hrun & Hclock & Hreqs).
  eexists _, s'. split; [exact Hrun|]. split; [exact Hclock|].
  split; [exact Hreqs|].
  intros w' s0 Hsame.
  rewrite <- (same_upstream_context w w' s s0 Hsame). now rewrite Hrun.
Qed.

Lemma delayed_wait (d : N) (s : Effects) :
  clock (snd (getSpaceContext (live station d) s)) = (clock s + N.max 30 d)%N.
Proof.
  destruct (getSpaceContext_runs (live station d) s) as (s' & Hrun & Hclock & _).
  rewrite Hrun. cbn [snd]. rewrite Hclock. f_equal.
  unfold fan_out_wait.
  replace (iss_wait (live station d)) with 30%N by (vm_compute; reflexivity).
  replace (latest_wait (live station d)) with 10%N by reflexivity.
  replace (upcoming_wait (live station d)) with 20%N by reflexivity.
  replace (apod_wait (live station d)) with d by reflexivity.
  lia.
Qed.

(** C3 as stated fails.  The picture service answers after ten minutes,
    the satellite service after 30 ms: getSpaceContext returns after the
    ten minutes (the route's own limit, maxDuration, is 120 s), with the
    picture's section present.  No deadline and margin bound every run. *)
Lemma C3_counterexample :
  apod_wait (live station 600000) = 600000%N /\
  iss_wait (live station 600000) = 30%N /\
  clock (snd (getSpaceContext (live station 600000) fresh)) = 600000%N /\
  fst (getSpaceContext (live station 600000) fresh) =
    Normal (sections_in_priority_order (live station 600000)
              (Some station) (Some sooner) [sooner; later] (Some picture)) /\
  (Z.of_N 600000 <=? 1000 * maxDuration) = false /\
  ~ exists deadline epsilon : N,
      forall (w : World) (s : Effects),
        (clock (snd (getSpaceContext w s)) <= clock s + deadline + epsilon)%N.
Proof.
  split; [reflexivity|]. split; [vm_compute; reflexivity|].
  split; [vm_compute; reflexivity|]. split; [vm_compute; reflexivity|].
  split; [reflexivity|].
  intros (deadline & epsilon & Hbound).
  specialize (Hbound (live station (deadline + epsilon + 1)) fresh).
  rewrite delayed_wait in Hbound. simpl in Hbound. lia.
Qed.

(** C4, as the code has it: the block returned by getSpaceContext is the
    header followed by the sections of exactly the results that are
    present, each in its fixed layout, in the order ISS position, latest
    launch, upcoming launches, picture of the day; it is the same for any
    two worlds that differ only in how long the replies take.  This holds
    whenever the instant of a present ISS position is a valid date
    ([timestamp * 1000] finite and at most 8.64e15 ms in magnitude). *)
Theorem C4_sections_in_fixed_order :
  forall (w : World) (s : Effects)
         (iss : option SatellitePosition) (latest : option SpaceXLaunch)
         (coming : list SpaceXLaunch) (apod : option NasaAPOD),
    fst (getISSPosition w s) = Normal iss ->
    fst (getLatestSpaceXLaunch w s) = Normal latest ->
    fst (getUpcomingSpaceXLaunches (Some 3%float) w s) = Normal coming ->
    fst (getNasaAPOD w s) = Normal apod ->
    valid_instant iss = true ->
    fst (getSpaceContext w s) =
      Normal (context_header +:+ iss_part iss +:+ latest_part w latest +:+
              upcoming_part w coming +:+ apod_part apod) /\
    forall (w' : World) (s' : Effects),
      same_upstream w w' ->
      fst (getSpaceContext w' s') = fst (getSpaceContext w s).
Proof.
  intros w s iss latest coming apod Hiss Hlatest Hcoming Hapod Hvalid.
  apply (runs_result _ _ _ _ _ _ _ (getISSPosition_runs w)) in Hiss.
  apply (runs_result _ _ _ _ _ _ _ (getLatestSpaceXLaunch_runs w)) in Hlatest.
  apply (runs_result _ _ _ _ _ _ _ (getUpcomingSpaceXLaunches_runs w)) in Hcoming.
  apply (runs_result _ _ _ _ _ _ _ (getNasaAPOD_runs w)) in Hapod.
  subst. split.
  - rewrite (runs_fst _ _ _ _ _ s (getSpaceContext_runs w)).
    now rewrite Hvalid.
  - intros w' s' Hsame. symmetry. now apply same_upstream_context.
Qed.

Lemma C4_witness :
  fst (getISSPosition (live station 40) fresh) = Normal (Some station) /\
  fst (getLatestSpaceXLaunch (live station 40) fresh) = Normal (Some sooner) /\
  fst (getUpcomingSpaceXLaunches (Some 3%float) (live station 40) fresh)
    = Normal [sooner; later] /\
  fst (getNasaAPOD (live station 40) fresh) = Normal (Some picture) /\
  valid_instant (Some station) = true /\
  fst (getSpaceContext (live station 40) fresh) =
    Normal (context_header +:+ iss_part (Some station) +:+
            latest_part (live station 40) (Some sooner) +:+
            upcoming_part (live station 40) [sooner; later] +:+
            apod_part (Some picture)) /\
  forall (w' : World) (s' : Effects),
    same_upstream (live station 40) w' ->
    fst (getSpaceContext w' s') = fst (getSpaceContext (live station 40) fresh).
Proof.
  split; [reflexivity|]. split; [reflexivity|]. split; [reflexivity|].
  split; [reflexivity|]. split; [reflexivity|].
  exact (C4_sections_in_fixed_order (live station 40) fresh
           (Some station) (Some sooner) [sooner; later] (Some picture)
           eq_refl eq_refl eq_refl eq_refl eq_refl).
Defined.

(** C4 as stated fails.  The ISS position and the latest launch are both
    present, but the position's instant (1e20 s) is no valid date, so
    [toISOString] throws, the aggregator's [catch] takes over, and the
    block returned is empty.  And the same replies give different blocks
    on two hosts whose locales write dates differently. *)
Lemma C4_counterexample :
  fst (getISSPosition (live timeless 40) fresh) = Normal (Some timeless) /\
  fst (getLatestSpaceXLaunch (live timeless 40) fresh) = Normal (Some sooner) /\
  JS.TimeClip (timestamp timeless * 1000)%float = None /\
  fst (getSpaceContext (live timeless 40) fresh) = Normal EmptyString /\
  process_env abroad = process_env (live station 40) /\
  (forall k u, network abroad k u = network (live station 40) k u) /\
  match fst (getSpaceContext abroad fresh),
        fst (getSpaceContext (live station 40) fresh) with
  | Normal there, Normal here => String.eqb there here
  | _, _ => true
  end = false.
Proof. repeat split; vm_compute; reflexivity. Qed.

Lemma prefix_append (a b : string) : String.prefix a (a +:+ b) = true.
Proof.
  induction a as [|x a IH]; [now destruct b|].
  rewrite append_cons. simpl. now destruct (ascii_dec x x).
Qed.

Lemma substring_all (b : string) : String.substring 0 (String.length b) b = b.
Proof. induction b as [|x b IH]; simpl; [reflexivity | now rewrite IH]. Qed.

Lemma substring_append (a b : string) :
  String.substring (String.length a) (String.length b) (a +:+ b) = b.
Proof.
  induction a as [|x a IH]; [apply substring_all|].
  rewrite append_cons. simpl. exact IH.
Qed.

(** C5: the instruction is the policy text followed by the context, and
    nothing else: the policy text is its exact prefix and the context is
    the rest.  POST composes this string from the context that
    getSpaceContext returned and hands it to the engine with the
    converted messages (when the conversion of the messages throws, POST
    throws the same error); a context that is not empty begins with the
    header line that delimits the data block; and the outcome of POST,
    the instruction with it, does not depend on the state in which POST
    runs (its clock, its console, the requests made before) nor on how
    long the replies take, only on the request and on the replies
    themselves. *)
Theorem C5_instruction_is_policy_then_context :
  (forall ctx : string,
      enhancedSystemPrompt ctx = ATHEY_SYSTEM_PROMPT +:+ ctx /\
      String.prefix ATHEY_SYSTEM_PROMPT (enhancedSystemPrompt ctx) = true /\
      String.substring (String.length ATHEY_SYSTEM_PROMPT) (String.length ctx)
        (enhancedSystemPrompt ctx) = ctx) /\
  (forall (UIMessages ModelMessages : Type)
          (convertToModelMessages : UIMessages -> JS.Error + ModelMessages)
          (w : World) (s : Effects) (msgs : UIMessages),
      exists (ctx : string) (s' : Effects),
        getSpaceContext w s = (Normal ctx, s') /\
        POST convertToModelMessages (Json (Members msgs)) w s =
          (match convertToModelMessages msgs with
           | inr converted =>
               Normal {| model := "gemini-2.5-flash";
                         system := ATHEY_SYSTEM_PROMPT +:+ ctx;
                         messages := converted |}
           | inl e => Throw e
           end, s') /\
        (ctx = EmptyString \/ String.prefix context_header ctx = true)) /\
  (forall (UIMessages ModelMessages : Type)
          (convertToModelMessages : UIMessages -> JS.Error + ModelMessages)
          (req : Body (RequestDocument UIMessages))
          (w : World) (s1 s2 : Effects),
      fst (POST convertToModelMessages req w s1) =
      fst (POST convertToModelMessages req w s2)) /\
  (forall (UIMessages ModelMessages : Type)
          (convertToModelMessages : UIMessages -> JS.Error + ModelMessages)
          (req : Body (RequestDocument UIMessages))
          (w w' : World) (s s' : Effects),
      same_upstream w w' ->
      fst (POST convertToModelMessages req w s) =
      fst (POST convertToModelMessages req w' s')).
Proof.
  split; [|split; [|split]].
  - intros ctx. unfold enhancedSystemPrompt.
    split; [reflexivity|]. split; [apply prefix_append | apply substring_append].
  - intros UIMessages ModelMessages convert w s msgs.
    destruct (getSpaceContext_runs w s) as (s' & Hrun & _).
    eexists _, s'. split; [exact Hrun|].
    split; [exact (POST_run convert w s s' _ msgs Hrun)|].
    destruct (valid_instant (iss_of w)); [right | now left].
    apply prefix_append.
  - intros UIMessages ModelMessages convert req w s1 s2.
    rewrite !POST_fst. destruct req as [reason|[reason|msgs]]; try reflexivity.
    now rewrite (same_upstream_context w w s1 s2 (conj eq_refl (conj (fun _ _ => eq_refl) (fun _ => eq_refl)))).
  - intros UIMessages ModelMessages convert req w w' s s' Hsame.
    rewrite !POST_fst. destruct req as [reason|[reason|msgs]]; try reflexivity.
    now rewrite (same_upstream_context w w' s s' Hsame).
Qed.

(** ** Fixed-point notation of [toFixed] *)

Lemma is_digit_digit (d : N) : (d < 10)%N -> JS.is_digit (JS.digit d) = true.
Proof.
  intros Hd. unfold JS.is_digit, JS.digit.
  rewrite N_ascii_embedding by lia.
  apply andb_true_iff. split; apply N.leb_le; lia.
Qed.

Lemma all_digits_append (a b : string) :
  JS.all_digits (a +:+ b) = JS.all_digits a && JS.all_digits b.
Proof.
  induction a as [|x a IH]; [reflexivity|].
  rewrite append_cons. simpl. now rewrite IH, andb_assoc.
Qed.

Lemma digits_aux_digits (fuel : nat) :
  forall n, JS.all_digits (JS.digits_aux fuel n) = true.
Proof.
  induction fuel as [|fuel IH]; intros n; [reflexivity|].
  simpl. destruct (n <? 10)%N eqn:Hsmall.
  - simpl. rewrite is_digit_digit by (now apply N.ltb_lt). reflexivity.
  - rewrite all_digits_append, IH. simpl.
    rewrite is_digit_digit by (apply N.mod_lt; lia). reflexivity.
Qed.

Lemma decimal_leading (n : N) :
  exists c rest, JS.decimal n = String c rest /\
                 JS.is_digit c = true /\ JS.all_digits rest = true.
Proof.
  pose proof (digits_aux_digits (S (N.to_nat (N.log2 n))) n) as Hall.
  unfold JS.decimal.
  destruct (JS.digits_aux (S (N.to_nat (N.log2 n))) n) as [|c rest] eqn:Hd.
  - exfalso. simpl in Hd. destruct (n <? 10)%N; [discriminate|].
    destruct (JS.digits_aux (N.to_nat (N.log2 n)) (n / 10)); discriminate.
  - simpl in Hall. apply andb_true_iff in Hall. exists c, rest. tauto.
Qed.

Lemma fixed_width_digits (w : nat) :
  forall n, JS.all_digits (JS.fixed_width w n) = true /\
            String.length (JS.fixed_width w n) = w.
Proof.
  induction w as [|w IH]; intros n; [split; reflexivity|].
  simpl. destruct (IH (n / 10)%N) as [Hall Hlen]. split.
  - rewrite all_digits_append, Hall. simpl.
    rewrite is_digit_digit by (apply N.mod_lt; lia). reflexivity.
  - rewrite length_append, Hlen. simpl. lia.
Qed.

Lemma after_digits_point (a frac : string) :
  JS.all_digits a = true -> after_digits (a +:+ String "." frac) = Some frac.
Proof.
  induction a as [|x a IH]; intros Hall; [reflexivity|].
  simpl in Hall. apply andb_true_iff in Hall. destruct Hall as [Hx Ha].
  rewrite append_cons. simpl. rewrite Hx. now apply IH.
Qed.

Lemma fixed_notation_decimals (n : Z) (f : nat) :
  unsigned_decimals (S f) (JS.fixed_notation n (S f)) = true.
Proof.
  unfold JS.fixed_notation.
  destruct (decimal_leading (Z.to_N (n / 10 ^ Z.of_nat (S f))))
    as (c & rest & Hdec & Hc & Hrest).
  destruct (fixed_width_digits (S f) (Z.to_N (n mod 10 ^ Z.of_nat (S f))))
    as [Hall Hlen].
  set (frac := JS.fixed_width (S f) _) in *.
  rewrite Hdec. change ("." +:+ frac) with (String "." frac).
  rewrite append_cons. unfold unsigned_decimals. rewrite Hc.
  rewrite <- append_cons, after_digits_point by (simpl; now rewrite Hc, Hrest).
  rewrite Hall, Hlen. simpl. now rewrite Nat.eqb_refl.
Qed.

Lemma has_decimals_unsigned (f : nat) (u : string) :
  unsigned_decimals f u = true -> has_decimals f u = true.
Proof.
  intros Hu. destruct u as [|c u]; [discriminate|].
  unfold has_decimals. destruct (Ascii.eqb_spec c "-") as [-> | _]; [|exact Hu].
  discriminate.
Qed.

Lemma has_decimals_signed (sgn : bool) (f : nat) (u : string) :
  unsigned_decimals f u = true ->
  has_decimals f ((if sgn then "-" else EmptyString) +:+ u) = true.
Proof.
  intros Hu. destruct sgn.
  - change ("-" +:+ u) with (String "-" u). exact Hu.
  - now apply has_decimals_unsigned.
Qed.

(** In its range [toFixed] writes exactly the digits asked for. *)
Lemma toFixed_decimals (x : float) (f : nat) :
  fixed_range x = true -> has_decimals (S f) (JS.toFixed x (S f)) = true.
Proof.
  unfold fixed_range, JS.toFixed.
  destruct (Prim2SF x) as [sgn | sgn | | sgn m e]; try discriminate.
  - intros _. apply has_decimals_unsigned, fixed_notation_decimals.
  - destruct (JS.compare_dec_bin 1 21 (Z.pos m) e); try discriminate.
    intros _. apply has_decimals_signed, fixed_notation_decimals.
Qed.

(** C9, as the code has it: for a present ISS position whose latitude
    and longitude are finite and below 10^21 in magnitude, and whose
    instant is a valid date ([timestamp * 1000] is the time value t), the
    block returned by getSpaceContext has, right after its header, the
    ISS section: the latitude and the longitude written with exactly 4
    digits after the point, and the ISO-8601 rendering of t. *)
Theorem C9_iss_section_format :
  forall (w : World) (s : Effects) (p : SatellitePosition) (t : Z),
    fst (getISSPosition w s) = Normal (Some p) ->
    fixed_range (satlatitude p) = true ->
    fixed_range (satlongitude p) = true ->
    JS.TimeClip (timestamp p * 1000)%float = Some t ->
    (exists rest : string,
        fst (getSpaceContext w s) =
        Normal (context_header +:+
                (LF +:+ "### ISS Current Position:" +:+ LF +:+
                 "- Latitude: " +:+ JS.toFixed (satlatitude p) 4 +:+ "°" +:+ LF +:+
                 "- Longitude: " +:+ JS.toFixed (satlongitude p) 4 +:+ "°" +:+ LF +:+
                 "- Altitude: " +:+ JS.toFixed (sataltitude p) 2 +:+ " km" +:+ LF +:+
                 "- Updated: " +:+ JS.iso_string t +:+ LF) +:+
                rest)) /\
    has_decimals 4 (JS.toFixed (satlatitude p) 4) = true /\
    has_decimals 4 (JS.toFixed (satlongitude p) 4) = true.
Proof.
  intros w s p t Hiss Hlat Hlng Hclip.
  apply (runs_result _ _ _ _ _ _ _ (getISSPosition_runs w)) in Hiss.
  split; [|split; now apply toFixed_decimals].
  exists (latest_part w (latest_of w) +:+ upcoming_part w (upcoming_of w) +:+
          apod_part (apod_of w)).
  rewrite (runs_fst _ _ _ _ _ s (getSpaceContext_runs w)).
  rewrite <- Hiss. unfold valid_instant, sections_in_priority_order, iss_part.
  rewrite Hclip. reflexivity.
Qed.

Lemma C9_witness :
  fixed_range (satlatitude station) = true /\
  fixed_range (satlongitude station) = true /\
  JS.TimeClip (timestamp station * 1000)%float = Some 1700000000000 /\
  JS.toFixed (satlatitude station) 4 = "51.5074" /\
  JS.toFixed (satlongitude station) 4 = "-0.1278" /\
  JS.toFixed (sataltitude station) 2 = "408.00" /\
  JS.iso_string 1700000000000 = "2023-11-14T22:13:20.000Z" /\
  (exists rest : string,
      fst (getSpaceContext (live station 40) fresh) =
      Normal (context_header +:+
              (LF +:+ "### ISS Current Position:" +:+ LF +:+
               "- Latitude: " +:+ JS.toFixed (satlatitude station) 4 +:+ "°" +:+ LF +:+
               "- Longitude: " +:+ JS.toFixed (satlongitude station) 4 +:+ "°" +:+ LF +:+
               "- Altitude: " +:+ JS.toFixed (sataltitude station) 2 +:+ " km" +:+ LF +:+
               "- Updated: " +:+ JS.iso_string 1700000000000 +:+ LF) +:+
              rest)) /\
  has_decimals 4 (JS.toFixed (satlatitude station) 4) = true /\
  has_decimals 4 (JS.toFixed (satlongitude station) 4) = true.
Proof.
  split; [reflexivity|]. split; [reflexivity|]. split; [reflexivity|].
  split; [reflexivity|]. split; [reflexivity|]. split; [reflexivity|].
  split; [reflexivity|].
  exact (C9_iss_section_format (live station 40) fresh station 1700000000000
           eq_refl eq_refl eq_refl eq_refl).
Defined.

(** C9 as stated fails for some present positions.  A latitude of 10^21
    is written by [toFixed(4)] in exponent notation, with no decimals;
    and a position whose instant is no valid date makes [toISOString]
    throw, so that the block returned is empty and holds no ISS section
    at all. *)
Lemma C9_counterexample :
  fst (getISSPosition (live far_out 40) fresh) = Normal (Some far_out) /\
  JS.toFixed (satlatitude far_out) 4 = "1e+21" /\
  has_decimals 4 (JS.toFixed (satlatitude far_out) 4) = false /\
  String.prefix
    (context_header +:+ LF +:+ "### ISS Current Position:" +:+ LF +:+
     "- Latitude: 1e+21°" +:+ LF)
    match fst (getSpaceContext (live far_out 40) fresh) with
    | Normal context => context
    | Throw _ => EmptyString
    end = true /\
  fst (getISSPosition (live timeless 40) fresh) = Normal (Some timeless) /\
  fst (getSpaceContext (live timeless 40) fresh) = Normal EmptyString.
Proof. repeat split; vm_compute; reflexivity. Qed.

(** ** More about the clients *)

(** Every call of every client, run: it completes normally and leaves
    the state that [left_by] describes. *)
Lemma call_leaves (p : Provider) (w : World) (s : Effects) :
  exists v : Result p, call p w s = (Normal v, left_by p w s).
Proof.
  destruct p; simpl call; unfold left_by, exchange_of;
    try match goal with
        | |- context [truthy ?k] => destruct (truthy k) eqn:Hkey
        end.
  - rewrite getSatellitePosition_configured by assumption. eexists. reflexivity.
  - rewrite getSatellitePosition_unconfigured by assumption. eexists. reflexivity.
  - rewrite getSatellitesAbove_configured by assumption. eexists. reflexivity.
  - rewrite getSatellitesAbove_unconfigured by assumption. eexists. reflexivity.
  - unfold getISSPosition. unfold bind at 1.
    rewrite getSatellitePosition_configured by assumption. eexists. reflexivity.
  - unfold getISSPosition. unfold bind at 1.
    rewrite getSatellitePosition_unconfigured by assumption. eexists. reflexivity.
  - rewrite getLatestSpaceXLaunch_run. eexists. reflexivity.
  - rewrite getUpcomingSpaceXLaunches_run. eexists. reflexivity.
  - rewrite getSpaceXRockets_run. eexists. reflexivity.
  - rewrite getPastSpaceXLaunches_run. eexists. reflexivity.
  - rewrite getISROSpacecrafts_run. eexists. reflexivity.
  - rewrite getISROLaunchVehicles_run. eexists. reflexivity.
  - rewrite getISROCentres_run. eexists. reflexivity.
  - rewrite getNasaAPOD_run. eexists. reflexivity.
Qed.

Lemma substring_suffix (a b : string) :
  String.substring (String.length (a +:+ b) - String.length b)
    (String.length b) (a +:+ b) = b.
Proof.
  rewrite length_append.
  replace (String.length a + String.length b - String.length b)%nat
    with (String.length a) by lia.
  apply substring_append.
Qed.

Lemma truthy_nonempty (key : string) :
  key <> EmptyString -> truthy (Some key) = true.
Proof. destruct key; [congruence | reflexivity]. Qed.

Lemma cause_absent (p : Provider) (w : World) (s : Effects)
    (v : Result p) (s' : Effects) :
  call p w s = (Normal v, s') ->
  match exchange_of p w with
  | Some ex => cause ex <> None
  | None => True
  end ->
  v = Absent p.
Proof.
  assert (Hfail : forall (T : Type) (prefix : string) (o : Outcome T),
             thrown prefix o <> None -> delivered o = None).
  { intros T prefix o Hthrown. apply failed_delivered.
    destruct (failed o) eqn:Hf; [reflexivity|].
    apply (thrown_delivered prefix) in Hf. contradiction. }
  destruct p; simpl call; unfold exchange_of;
    try match goal with
        | |- context [truthy ?k] => destruct (truthy k) eqn:Hkey
        end;
    unfold observed; cbn [cause]; intros Hrun Hcause;
    try apply Hfail in Hcause; cbn [Payload] in *.
  - rewrite getSatellitePosition_configured in Hrun by assumption.
    injection Hrun as <- _. exact Hcause.
  - rewrite getSatellitePosition_unconfigured in Hrun by assumption.
    now injection Hrun as <- _.
  - rewrite getSatellitesAbove_configured in Hrun by assumption.
    injection Hrun as <- _. exact Hcause.
  - rewrite getSatellitesAbove_unconfigured in Hrun by assumption.
    now injection Hrun as <- _.
  - unfold getISSPosition in Hrun. unfold bind at 1 in Hrun.
    rewrite getSatellitePosition_configured in Hrun by assumption.
    injection Hrun as <- _. exact (f_equal first_position Hcause).
  - unfold getISSPosition in Hrun. unfold bind at 1 in Hrun.
    rewrite getSatellitePosition_unconfigured in Hrun by assumption.
    now injection Hrun as <- _.
  - rewrite getLatestSpaceXLaunch_run in Hrun. injection Hrun as <- _. exact Hcause.
  - rewrite getUpcomingSpaceXLaunches_run in Hrun. injection Hrun as <- _.
    cbn [Payload] in *. now rewrite Hcause.
  - rewrite getSpaceXRockets_run in Hrun. injection Hrun as <- _.
    cbn [Payload] in *. now rewrite Hcause.
  - rewrite getPastSpaceXLaunches_run in Hrun. injection Hrun as <- _.
    cbn [Payload] in *. now rewrite Hcause.
  - rewrite getISROSpacecrafts_run in Hrun. injection Hrun as <- _.
    cbn [Payload] in *. now rewrite Hcause.
  - rewrite getISROLaunchVehicles_run in Hrun. injection Hrun as <- _.
    cbn [Payload] in *. now rewrite Hcause.
  - rewrite getISROCentres_run in Hrun. injection Hrun as <- _.
    cbn [Payload] in *. now rewrite Hcause.
  - rewrite getNasaAPOD_run in Hrun. injection Hrun as <- _. exact Hcause.
Qed.

(** X1: every call of every client sends exactly one request, to the URL
    of its service, and returns when the reply to it is in, whatever the
    reply is; the three clients that need the N2YO credential send none
    when they have none.  No client sends a second request. *)
Theorem X1_one_request_per_call :
  forall (p : Provider) (w : World) (s : Effects),
    exists (v : Result p) (s' : Effects),
      call p w s = (Normal v, s') /\
      requests s' =
        requests s ++
        match exchange_of p w with Some ex => [sent_to ex] | None => [] end /\
      clock s' =
        (clock s + match exchange_of p w with Some ex => took ex | None => 0 end)%N /\
      (length (requests s') <= length (requests s) + 1)%nat.
Proof.
  intros p w s. destruct (call_leaves p w s) as [v Hrun].
  exists v, (left_by p w s). split; [exact Hrun|].
  unfold left_by. destruct (exchange_of p w) as [ex|]; cbn [requests clock unconfigured].
  - split; [reflexivity|]. split; [reflexivity|]. rewrite length_app. simpl. lia.
  - rewrite app_nil_r. split; [reflexivity|]. split; lia.
Qed.

(** X2: a client writes to the console exactly when it returns no data
    for a failure of its own, and then one line: without the credential
    it needs, the line "N2YO_API_KEY not set" with no error, at once;
    after a failed exchange, the client's message and the error that
    caused it (for a status outside 200-299 the error of the status,
    whatever the body holds), stamped with the instant of the reply.  An
    exchange that succeeded writes nothing, so a call that returns data
    has written nothing. *)
Theorem X2_failures_are_logged_once :
  forall (p : Provider) (w : World) (s : Effects),
    exists (v : Result p) (s' : Effects),
      call p w s = (Normal v, s') /\
      console s' =
        match exchange_of p w with
        | Some ex =>
            match cause ex with
            | Some e => console s ++ [{| logged_at := clock s';
                                         message := failure_message p;
                                         detail := Some e |}]
            | None => console s
            end
        | None =>
            console s ++ [{| logged_at := clock s;
                             message := "N2YO_API_KEY not set";
                             detail := None |}]
        end /\
      (v <> Absent p -> console s' = console s) /\
      (forall (ex : Exchange) (st : N),
          exchange_of p w = Some ex ->
          answered ex = Some st ->
          ok_status st = false ->
          cause ex = Some (JS.GenericError
                             (service p +:+ " API error: " +:+ JS.decimal st))).
Proof.
  intros p w s. destruct (call_leaves p w s) as [v Hrun].
  exists v, (left_by p w s). split; [exact Hrun|]. split; [|split].
  - unfold left_by. destruct (exchange_of p w) as [ex|]; reflexivity.
  - intros Hpresent.
    pose proof (cause_absent p w s v _ Hrun) as Habsent.
    unfold left_by. destruct (exchange_of p w) as [ex|].
    + cbn [console]. destruct (cause ex) as [e|]; [|reflexivity].
      exfalso. apply Hpresent, Habsent. discriminate.
    + exfalso. apply Hpresent, Habsent. exact I.
  - intros ex st Hex Hst Hbad.
    assert (Hgen : forall (k : Endpoint) (url name : string),
               answered (observed w k url name) = Some st ->
               cause (observed w k url name)
               = Some (JS.GenericError ((name +:+ " API error: ") +:+ JS.decimal st))).
    { intros k url name. unfold observed. cbn [answered cause].
      destruct (outcome (network w k url)) as [|st' b]; [discriminate|].
      intros [= ->]. simpl. now rewrite Hbad. }
    rewrite <- append_assoc.
    destruct p; unfold exchange_of in Hex;
      try match type of Hex with
          | context [truthy ?k] => destruct (truthy k); [|discriminate]
          end;
      injection Hex as <-; now apply Hgen.
Qed.

(** X4: a credential that is set and not empty goes into the URL as it
    is, and the document of the reply comes back as it is:
    getSatellitePosition and getSatellitesAbove request
    ...&apiKey=<key>, getNasaAPOD requests ...?api_key=<key>, and each
    returns the document of a 2xx JSON reply, null otherwise. *)
Theorem X4_credentials_go_into_the_request :
  forall (w : World) (s : Effects) (key : string),
    key <> EmptyString ->
    (process_env w !! "N2YO_API_KEY" = Some key ->
     (forall noradId seconds,
         let url := positions_url noradId 0 0 0 (default 1%float seconds) (Some key) in
         exists s',
           getSatellitePosition noradId seconds w s =
             (Normal (delivered (outcome (network w PositionsApi url))), s') /\
           requests s' = requests s ++ [url] /\
           String.substring (String.length url - String.length key)
             (String.length key) url = key) /\
     (forall lat lng searchRadius categoryId,
         let url := above_url (default 28.6139%float lat) (default 77.209%float lng)
                      (default 70%float searchRadius) (default 0%float categoryId)
                      (Some key) in
         exists s',
           getSatellitesAbove lat lng searchRadius categoryId w s =
             (Normal (delivered (outcome (network w AboveApi url))), s') /\
           requests s' = requests s ++ [url])) /\
    (process_env w !! "NASA_API_KEY" = Some key ->
     let url := "https://api.nasa.gov/planetary/apod?api_key=" +:+ key in
     exists s',
       getNasaAPOD w s = (Normal (delivered (outcome (network w ApodApi url))), s') /\
       requests s' = requests s ++ [url]).
Proof.
  intros w s key Hkey. pose proof (truthy_nonempty key Hkey) as Htruthy.
  split.
  - intros Henv. rewrite <- Henv in Htruthy. split.
    + intros noradId seconds url.
      rewrite (getSatellitePosition_configured noradId seconds w s Htruthy).
      rewrite Henv. eexists. split; [reflexivity|]. split; [reflexivity|].
      unfold url, positions_url. cbn [template]. rewrite <- !append_assoc.
      apply substring_suffix.
    + intros lat lng searchRadius categoryId url.
      rewrite (getSatellitesAbove_configured lat lng searchRadius categoryId w s Htruthy).
      rewrite Henv. eexists. split; reflexivity.
  - intros Henv url. rewrite getNasaAPOD_run. rewrite Henv.
    unfold or_else. rewrite Htruthy. eexists. split; reflexivity.
Qed.

Lemma X4_witness :
  "n2yo-secret" <> EmptyString /\
  process_env with_keys !! "N2YO_API_KEY" = Some "n2yo-secret" /\
  exists s',
    getSatellitePosition 25544 None with_keys fresh =
      (Normal (Some {| info := station_info; positions := Some [station] |}), s') /\
    requests s' =
      ["https://api.n2yo.com/rest/v1/satellite/positions/25544/0/0/0/1&apiKey=n2yo-secret"].
Proof.
  split; [discriminate|]. split; [reflexivity|].
  destruct (proj1 (proj1 (X4_credentials_go_into_the_request with_keys fresh
                            "n2yo-secret" ltac:(discriminate)) eq_refl)
              25544%float None) as (s' & Hrun & Hreqs & _).
  exists s'. split; [exact Hrun | exact Hreqs].
Defined.

(** X5: a credential that is set to the empty string counts as missing.
    With N2YO_API_KEY empty the satellite clients send nothing, write
    "N2YO_API_KEY not set" and return null; with NASA_API_KEY empty
    getNasaAPOD requests with DEMO_KEY. *)
Theorem X5_blank_credentials_count_as_missing :
  forall (w : World) (s : Effects),
    (process_env w !! "N2YO_API_KEY" = Some EmptyString ->
     (forall noradId seconds,
         getSatellitePosition noradId seconds w s = (Normal None, unconfigured s)) /\
     (forall lat lng searchRadius categoryId,
         getSatellitesAbove lat lng searchRadius categoryId w s
         = (Normal None, unconfigured s)) /\
     getISSPosition w s = (Normal None, unconfigured s)) /\
    (process_env w !! "NASA_API_KEY" = Some EmptyString ->
     exists result s',
       getNasaAPOD w s = (Normal result, s') /\
       requests s' =
         requests s ++ ["https://api.nasa.gov/planetary/apod?api_key=DEMO_KEY"]).
Proof.
  intros w s. split.
  - intros Henv.
    assert (Hfalsy : truthy (process_env w !! "N2YO_API_KEY") = false)
      by (now rewrite Henv).
    split; [|split].
    + intros. now apply getSatellitePosition_unconfigured.
    + intros. now apply getSatellitesAbove_unconfigured.
    + unfold getISSPosition. unfold bind at 1.
      now rewrite getSatellitePosition_unconfigured.
  - intros Henv. rewrite getNasaAPOD_run, Henv. eexists _, _.
    split; reflexivity.
Qed.

Lemma X5_witness :
  process_env blank_keys !! "N2YO_API_KEY" = Some EmptyString /\
  process_env blank_keys !! "NASA_API_KEY" = Some EmptyString /\
  getISSPosition blank_keys fresh = (Normal None, unconfigured fresh) /\
  exists result s',
    getNasaAPOD blank_keys fresh = (Normal result, s') /\
    requests s' =
      requests fresh ++ ["https://api.nasa.gov/planetary/apod?api_key=DEMO_KEY"].
Proof.
  split; [reflexivity|]. split; [reflexivity|].
  destruct (X5_blank_credentials_count_as_missing blank_keys fresh) as [Hn2yo Hnasa].
  split.
  - exact (proj2 (proj2 (Hn2yo eq_refl))).
  - exact (Hnasa eq_refl).
Defined.

(** X6: the clients of the agency's catalog read one member of the
    document, [data.spacecrafts || []] and its likes.  When a 2xx JSON
    reply lacks the member they return the empty list and write nothing
    to the console, so that the caller cannot tell it from an empty
    catalog; when it holds the member they return its list as it is. *)
Theorem X6_catalog_member_may_be_missing :
  forall (w : World) (s : Effects),
    (forall data,
        delivered (outcome (network w SpacecraftsApi
          "https://isro.vercel.app/api/spacecrafts")) = Some data ->
        fst (getISROSpacecrafts w s) = Normal (default [] (spacecrafts data)) /\
        console (snd (getISROSpacecrafts w s)) = console s) /\
    (forall data,
        delivered (outcome (network w LaunchersApi
          "https://isro.vercel.app/api/launchers")) = Some data ->
        fst (getISROLaunchVehicles w s) = Normal (default [] (launchers data)) /\
        console (snd (getISROLaunchVehicles w s)) = console s) /\
    (forall data,
        delivered (outcome (network w CentresApi
          "https://isro.vercel.app/api/centres")) = Some data ->
        fst (getISROCentres w s) = Normal (default [] (centres data)) /\
        console (snd (getISROCentres w s)) = console s).
Proof.
  assert (Hquiet : forall (T : Type) (prefix : string) (o : Outcome T) (d : T),
             delivered o = Some d -> thrown prefix o = None).
  { intros T prefix o d Hd. apply thrown_delivered.
    destruct (failed o) eqn:Hf; [|reflexivity].
    apply failed_delivered in Hf. congruence. }
  intros w s. split; [|split]; intros data Hdata.
  - rewrite getISROSpacecrafts_run. cbn [fst snd]. unfold settled. cbn [console].
    change (ISRO_BASE_URL +:+ "/spacecrafts")
      with "https://isro.vercel.app/api/spacecrafts".
    cbn [Payload] in *. rewrite Hdata, (Hquiet _ _ _ _ Hdata). split; reflexivity.
  - rewrite getISROLaunchVehicles_run. cbn [fst snd]. unfold settled. cbn [console].
    change (ISRO_BASE_URL +:+ "/launchers")
      with "https://isro.vercel.app/api/launchers".
    cbn [Payload] in *. rewrite Hdata, (Hquiet _ _ _ _ Hdata). split; reflexivity.
  - rewrite getISROCentres_run. cbn [fst snd]. unfold settled. cbn [console].
    change (ISRO_BASE_URL +:+ "/centres")
      with "https://isro.vercel.app/api/centres".
    cbn [Payload] in *. rewrite Hdata, (Hquiet _ _ _ _ Hdata). split; reflexivity.
Qed.

Lemma X6_witness :
  delivered (outcome (network bare_catalog SpacecraftsApi
    "https://isro.vercel.app/api/spacecrafts")) = Some {| spacecrafts := None |} /\
  fst (getISROSpacecrafts bare_catalog fresh) = Normal [] /\
  console (snd (getISROSpacecrafts bare_catalog fresh)) = [].
Proof.
  split; [reflexivity|].
  exact (proj1 (X6_catalog_member_may_be_missing bare_catalog fresh)
           {| spacecrafts := None |} eq_refl).
Defined.

(** ** More about the launch lists *)

Lemma relative_index_bounds (len : Z) (i : JS.IntegerOrInfinity) :
  0 <= len -> 0 <= JS.relative_index len i <= len.
Proof.
  intros Hlen. unfold JS.relative_index.
  destruct i as [|z|]; try lia.
  destruct (Z.ltb_spec z 0); lia.
Qed.

Lemma slice_from_start {A : Type} (l : list A) (e : JS.IntegerOrInfinity) :
  JS.Array_slice l (JS.Integer 0) (Some e)
  = take (Z.to_nat (JS.relative_index (Z.of_nat (length l)) e)) l.
Proof.
  unfold JS.Array_slice.
  replace (JS.relative_index (Z.of_nat (length l)) (JS.Integer 0)) with 0
    by (unfold JS.relative_index; change (0 <? 0) with false; cbv iota; lia).
  rewrite Z.sub_0_r. reflexivity.
Qed.

Lemma slice_to_end {A : Type} (l : list A) (b : JS.IntegerOrInfinity) :
  JS.Array_slice l b None
  = drop (Z.to_nat (JS.relative_index (Z.of_nat (length l)) b)) l.
Proof.
  unfold JS.Array_slice.
  pose proof (relative_index_bounds (Z.of_nat (length l)) b ltac:(lia)) as Hb.
  apply take_ge. rewrite length_drop. lia.
Qed.

(** X7: whatever the limit is (omitted, negative, fractional, NaN,
    infinite), the launch clients only cut the list that the service
    sent: getUpcomingSpaceXLaunches returns its first launches,
    getPastSpaceXLaunches its last launches in reverse; no launch is
    added, repeated or moved. *)
Theorem X7_launch_lists_are_cut_only :
  forall (w : World) (s : Effects) (limit : option float)
         (coming gone : list SpaceXLaunch),
    delivered (outcome (network w LaunchesApi
      "https://api.spacexdata.com/v4/launches/upcoming")) = Some coming ->
    delivered (outcome (network w LaunchesApi
      "https://api.spacexdata.com/v4/launches/past")) = Some gone ->
    (exists n : nat,
        fst (getUpcomingSpaceXLaunches limit w s) = Normal (take n coming)) /\
    (exists n : nat,
        fst (getPastSpaceXLaunches limit w s) = Normal (reverse (drop n gone))).
Proof.
  intros w s limit coming gone Hcoming Hgone. split.
  - rewrite getUpcomingSpaceXLaunches_run. cbn [fst].
    change (SPACEX_BASE_URL +:+ "/launches/upcoming")
      with "https://api.spacexdata.com/v4/launches/upcoming".
    cbn [Payload] in *. rewrite Hcoming, slice_from_start. eexists. reflexivity.
  - rewrite getPastSpaceXLaunches_run. cbn [fst].
    change (SPACEX_BASE_URL +:+ "/launches/past")
      with "https://api.spacexdata.com/v4/launches/past".
    cbn [Payload] in *. rewrite Hgone, slice_to_end. eexists. reflexivity.
Qed.

Lemma X7_witness :
  delivered (outcome (network unsorted_feed LaunchesApi
    "https://api.spacexdata.com/v4/launches/upcoming"))
    = Some [later; sooner; falconsat] /\
  (exists n : nat,
      fst (getUpcomingSpaceXLaunches (Some (-1.5)%float) unsorted_feed fresh)
      = Normal (take n [later; sooner; falconsat])) /\
  (exists n : nat,
      fst (getPastSpaceXLaunches (Some nan) unsorted_feed fresh)
      = Normal (reverse (drop n [later; sooner; falconsat]))).
Proof.
  split; [reflexivity|].
  split.
  - exact (proj1 (X7_launch_lists_are_cut_only unsorted_feed fresh
                    (Some (-1.5)%float)
                    [later; sooner; falconsat] [later; sooner; falconsat]
                    eq_refl eq_refl)).
  - exact (proj2 (X7_launch_lists_are_cut_only unsorted_feed fresh (Some nan)
                    [later; sooner; falconsat] [later; sooner; falconsat]
                    eq_refl eq_refl)).
Defined.

(** X8: at a limit whose integer part is zero (0, -0, 0.5, NaN) the two
    launch clients differ: getUpcomingSpaceXLaunches returns no launch,
    getPastSpaceXLaunches returns every launch that the service sent, in
    reverse ([slice(-0)] is [slice(0)]). *)
Theorem X8_limit_zero :
  forall (w : World) (s : Effects) (limit : float)
         (coming gone : list SpaceXLaunch),
    JS.ToIntegerOrInfinity limit = JS.Integer 0 ->
    delivered (outcome (network w LaunchesApi
      "https://api.spacexdata.com/v4/launches/upcoming")) = Some coming ->
    delivered (outcome (network w LaunchesApi
      "https://api.spacexdata.com/v4/launches/past")) = Some gone ->
    fst (getUpcomingSpaceXLaunches (Some limit) w s) = Normal [] /\
    fst (getPastSpaceXLaunches (Some limit) w s) = Normal (reverse gone).
Proof.
  intros w s limit coming gone Hlimit Hcoming Hgone. split.
  - rewrite getUpcomingSpaceXLaunches_run. cbn [fst default from_option id].
    change (SPACEX_BASE_URL +:+ "/launches/upcoming")
      with "https://api.spacexdata.com/v4/launches/upcoming".
    cbn [Payload] in *. rewrite Hcoming, Hlimit.
    change (JS.Integer 0) with (JS.Integer (Z.of_nat 0)) at 2.
    now rewrite slice_prefix.
  - rewrite getPastSpaceXLaunches_run. cbn [fst default from_option id].
    change (SPACEX_BASE_URL +:+ "/launches/past")
      with "https://api.spacexdata.com/v4/launches/past".
    cbn [Payload] in *.
    rewrite Hgone, (ToIntegerOrInfinity_opp limit 0 Hlimit), slice_to_end.
    replace (JS.relative_index (Z.of_nat (length gone)) (JS.Integer (- 0))) with 0
      by (unfold JS.relative_index; change (- 0 <? 0) with false; cbv iota; lia).
    reflexivity.
Qed.

Lemma X8_witness :
  JS.ToIntegerOrInfinity 0.5%float = JS.Integer 0 /\
  JS.ToIntegerOrInfinity nan = JS.Integer 0 /\
  fst (getUpcomingSpaceXLaunches (Some 0.5%float) sorted_feed fresh) = Normal [] /\
  fst (getPastSpaceXLaunches (Some 0.5%float) sorted_feed fresh)
    = Normal [later; sooner].
Proof.
  split; [reflexivity|]. split; [reflexivity|].
  exact (X8_limit_zero sorted_feed fresh 0.5%float [sooner; later] [sooner; later]
           eq_refl eq_refl eq_refl).
Defined.

(** X9: called without a limit, getUpcomingSpaceXLaunches returns the
    first five launches that the service sent and getPastSpaceXLaunches
    the last ten, the last one first. *)
Theorem X9_default_limits :
  forall (w : World) (s : Effects) (coming gone : list SpaceXLaunch),
    delivered (outcome (network w LaunchesApi
      "https://api.spacexdata.com/v4/launches/upcoming")) = Some coming ->
    delivered (outcome (network w LaunchesApi
      "https://api.spacexdata.com/v4/launches/past")) = Some gone ->
    fst (getUpcomingSpaceXLaunches None w s) = Normal (take 5 coming) /\
    fst (getPastSpaceXLaunches None w s)
      = Normal (reverse (drop (length gone - 10) gone)).
Proof.
  intros w s coming gone Hcoming Hgone. split.
  - rewrite getUpcomingSpaceXLaunches_run. cbn [fst default from_option id].
    change (SPACEX_BASE_URL +:+ "/launches/upcoming")
      with "https://api.spacexdata.com/v4/launches/upcoming".
    cbn [Payload] in *. rewrite Hcoming.
    replace (JS.ToIntegerOrInfinity 5) with (JS.Integer (Z.of_nat 5))
      by (vm_compute; reflexivity).
    now rewrite slice_prefix.
  - rewrite getPastSpaceXLaunches_run. cbn [fst default from_option id].
    change (SPACEX_BASE_URL +:+ "/launches/past")
      with "https://api.spacexdata.com/v4/launches/past".
    cbn [Payload] in *. rewrite Hgone.
    rewrite (ToIntegerOrInfinity_opp 10%float (Z.of_nat 10) eq_refl).
    rewrite slice_suffix by lia. reflexivity.
Qed.

Lemma X9_witness :
  fst (getUpcomingSpaceXLaunches None sorted_feed fresh) = Normal [sooner; later] /\
  fst (getPastSpaceXLaunches None sorted_feed fresh) = Normal [later; sooner].
Proof.
  exact (X9_default_limits sorted_feed fresh [sooner; later] [sooner; later]
           eq_refl eq_refl).
Defined.

(** ** More about the aggregation *)

Lemma getISROSpacecrafts_runs (w : World) :
  runs getISROSpacecrafts w (spacecrafts_of w) (spacecrafts_wait w) [spacecrafts_url].
Proof.
  intros s. rewrite getISROSpacecrafts_run.
  eexists. split; [reflexivity|]. split; reflexivity.
Qed.

Lemma getSpaceDataSummary_runs (w : World) :
  runs getSpaceDataSummary w (summary_of w)
    (N.max (iss_wait w)
       (N.max (latest_wait w)
          (N.max (upcoming_wait w) (N.max (spacecrafts_wait w) (apod_wait w)))))
    (iss_requests w ++ [latest_url; upcoming_url; spacecrafts_url; nasa_url w]).
Proof.
  unfold getSpaceDataSummary, Promise_all5.
  change (iss_requests w ++ [latest_url; upcoming_url; spacecrafts_url; nasa_url w])
    with (iss_requests w ++ [latest_url] ++ [upcoming_url] ++ [spacecrafts_url]
          ++ [nasa_url w]).
  apply (runs_then _ _ w
           (iss_of w, latest_of w, upcoming_of w, spacecrafts_of w, apod_of w)).
  - apply (runs_then _ _ w
             (iss_of w, (latest_of w, (upcoming_of w, (spacecrafts_of w, apod_of w))))).
    + pose proof (getISROSpacecrafts_runs w). auto 10 with runs.
    + apply evaluates_ret.
  - apply evaluates_ret.
Qed.

(** X10: getSpaceDataSummary puts together what its five clients return,
    each in its own field; it never throws; its five requests (four
    without the N2YO credential) leave in the order of the calls, and it
    returns when the slowest reply is in. *)
Theorem X10_summary_of_five_clients :
  forall (w : World) (s : Effects)
         (position : option SatellitePosition) (latest : option SpaceXLaunch)
         (coming : list SpaceXLaunch) (crafts : list ISROSpacecraft)
         (picture_of_day : option NasaAPOD),
    fst (getISSPosition w s) = Normal position ->
    fst (getLatestSpaceXLaunch w s) = Normal latest ->
    fst (getUpcomingSpaceXLaunches (Some 3%float) w s) = Normal coming ->
    fst (getISROSpacecrafts w s) = Normal crafts ->
    fst (getNasaAPOD w s) = Normal picture_of_day ->
    exists s' : Effects,
      getSpaceDataSummary w s =
        (Normal {| iss := position;
                   latestSpaceXLaunch := latest;
                   upcomingSpaceXLaunches := coming;
                   isroSpacecrafts := crafts;
                   nasaAPOD := picture_of_day |}, s') /\
      requests s' =
        requests s ++ iss_requests w ++
        [latest_url; upcoming_url; "https://isro.vercel.app/api/spacecrafts";
         nasa_url w] /\
      clock s' =
        (clock s +
         N.max (iss_wait w)
           (N.max (latest_wait w)
              (N.max (upcoming_wait w)
                 (N.max (latency (network w SpacecraftsApi
                           "https://isro.vercel.app/api/spacecrafts"))
                    (apod_wait w)))))%N.
Proof.
  intros w s position latest coming crafts picture_of_day
    Hiss Hlatest Hcoming Hcrafts Hapod.
  apply (runs_result _ _ _ _ _ _ _ (getISSPosition_runs w)) in Hiss.
  apply (runs_result _ _ _ _ _ _ _ (getLatestSpaceXLaunch_runs w)) in Hlatest.
  apply (runs_result _ _ _ _ _ _ _ (getUpcomingSpaceXLaunches_runs w)) in Hcoming.
  apply (runs_result _ _ _ _ _ _ _ (getISROSpacecrafts_runs w)) in Hcrafts.
  apply (runs_result _ _ _ _ _ _ _ (getNasaAPOD_runs w)) in Hapod.
  subst. destruct (getSpaceDataSummary_runs w s) as (s' & Hrun & Hclock & Hreqs).
  exists s'. split; [exact Hrun|]. split; [exact Hreqs | exact Hclock].
Qed.

Lemma X10_witness :
  fst (getISROSpacecrafts catalogued fresh)
    = Normal [{| spacecraft_id := "1"; spacecraft_name := "Aryabhata" |}] /\
  exists s' : Effects,
    getSpaceDataSummary catalogued fresh =
      (Normal {| iss := Some station;
                 latestSpaceXLaunch := Some sooner;
                 upcomingSpaceXLaunches := [sooner; later];
                 isroSpacecrafts :=
                   [{| spacecraft_id := "1"; spacecraft_name := "Aryabhata" |}];
                 nasaAPOD := Some picture |}, s') /\
    length (requests s') = 5%nat /\
    clock s' = 90%N.
Proof.
  split; [reflexivity|].
  destruct (X10_summary_of_five_clients catalogued fresh
              (Some station) (Some sooner) [sooner; later]
              [{| spacecraft_id := "1"; spacecraft_name := "Aryabhata" |}]
              (Some picture) eq_refl eq_refl eq_refl eq_refl eq_refl)
    as (s' & Hrun & Hreqs & Hclock).
  exists s'. split; [exact Hrun|]. split.
  - rewrite Hreqs. reflexivity.
  - rewrite Hclock. vm_compute. reflexivity.
Defined.

(** X11: the block that getSpaceContext returns is the rendering of the
    fields of getSpaceDataSummary, the agency's catalog left out: the
    header, then the sections of the summary's ISS position, latest
    launch, upcoming launches and picture of the day, as far as they are
    there (for a position whose instant is a valid date). *)
Theorem X11_context_renders_the_summary :
  forall (w : World) (s : Effects) (summary : SpaceDataSummary),
    fst (getSpaceDataSummary w s) = Normal summary ->
    valid_instant (iss summary) = true ->
    fst (getSpaceContext w s) =
      Normal (context_header +:+ iss_part (iss summary) +:+
              latest_part w (latestSpaceXLaunch summary) +:+
              upcoming_part w (upcomingSpaceXLaunches summary) +:+
              apod_part (nasaAPOD summary)).
Proof.
  intros w s summary Hsummary Hvalid.
  apply (runs_result _ _ _ _ _ _ _ (getSpaceDataSummary_runs w)) in Hsummary.
  subst summary. cbn [iss latestSpaceXLaunch upcomingSpaceXLaunches nasaAPOD summary_of] in *.
  rewrite (runs_fst _ _ _ _ _ s (getSpaceContext_runs w)). now rewrite Hvalid.
Qed.

Lemma X11_witness :
  valid_instant (Some station) = true /\
  fst (getSpaceContext catalogued fresh) =
    Normal (context_header +:+ iss_part (Some station) +:+
            latest_part catalogued (Some sooner) +:+
            upcoming_part catalogued [sooner; later] +:+
            apod_part (Some picture)).
Proof.
  split; [reflexivity|].
  exact (X11_context_renders_the_summary catalogued fresh
           {| iss := Some station;
              latestSpaceXLaunch := Some sooner;
              upcomingSpaceXLaunches := [sooner; later];
              isroSpacecrafts :=
                [{| spacecraft_id := "1"; spacecraft_name := "Aryabhata" |}];
              nasaAPOD := Some picture |} eq_refl eq_refl).
Defined.

(** X12: POST never fails on account of the providers.  For a request
    whose document is not null it fetches the context first - the
    requests of the aggregator's four clients and no other (none to the
    rocket or agency services, whose clients the route imports) - and
    then converts the messages: when the conversion throws, POST throws
    the same error, the requests having been sent; otherwise it hands the
    converted messages to the engine under the model "gemini-2.5-flash",
    with the policy text followed by the context as instruction.  A body
    that is not JSON, or the document null, makes it throw at once, with
    the runtime's error: nothing is requested and nothing is written. *)
Theorem X12_route_survives_the_providers :
  forall (UIMessages ModelMessages : Type)
         (convertToModelMessages : UIMessages -> JS.Error + ModelMessages)
         (w : World) (s : Effects),
    (forall msgs : UIMessages,
        exists (ctx : string) (s' : Effects),
          getSpaceContext w s = (Normal ctx, s') /\
          POST convertToModelMessages (Json (Members msgs)) w s =
            (match convertToModelMessages msgs with
             | inr converted =>
                 Normal {| model := "gemini-2.5-flash";
                           system := ATHEY_SYSTEM_PROMPT +:+ ctx;
                           messages := converted |}
             | inl e => Throw e
             end, s') /\
          requests s' =
            requests s ++ iss_requests w ++ [latest_url; upcoming_url; nasa_url w]) /\
    (forall reason : string,
        POST convertToModelMessages (Malformed reason) w s =
          (Throw (JS.SyntaxError reason), s)) /\
    (forall reason : string,
        POST convertToModelMessages (Json (NullDocument reason)) w s =
          (Throw (JS.TypeError reason), s)).
Proof.
  intros UIMessages ModelMessages convert w s.
  split; [|exact (POST_unreadable convert w s)].
  intros msgs. destruct (getSpaceContext_runs w s) as (s' & Hrun & _ & Hreqs).
  eexists _, s'. split; [exact Hrun|].
  split; [exact (POST_run convert w s s' _ msgs Hrun) | exact Hreqs].
Qed.

(** X3: without the N2YO credential the chat goes on without the ISS
    section: getSpaceContext sends the three other requests only and
    returns the header followed by the sections of the latest launch,
    the upcoming launches and the picture of the day, as far as they are
    there. *)
Theorem X3_context_without_satellite_credential :
  forall (w : World) (s : Effects),
    process_env w !! "N2YO_API_KEY" = None ->
    exists (s' : Effects),
      getSpaceContext w s =
        (Normal (context_header +:+ latest_part w (latest_of w) +:+
                 upcoming_part w (upcoming_of w) +:+ apod_part (apod_of w)), s') /\
      requests s' = requests s ++ [latest_url; upcoming_url; nasa_url w] /\
      fst (getLatestSpaceXLaunch w s) = Normal (latest_of w) /\
      fst (getUpcomingSpaceXLaunches (Some 3%float) w s) = Normal (upcoming_of w) /\
      fst (getNasaAPOD w s) = Normal (apod_of w).
Proof.
  intros w s Hkey.
  destruct (getSpaceContext_runs w s) as (s' & Hrun & _ & Hreqs).
  assert (Hiss : iss_of w = None) by (unfold iss_of, n2yo_key; now rewrite Hkey).
  assert (Hnone : iss_requests w = []) by (unfold iss_requests, n2yo_key; now rewrite Hkey).
  rewrite Hiss in Hrun. cbn [valid_instant] in Hrun.
  unfold sections_in_priority_order in Hrun. cbn [iss_part] in Hrun.
  unfold fan_out_requests in Hreqs. rewrite Hnone in Hreqs.
  exists s'. split; [exact Hrun|]. split; [exact Hreqs|].
  split; [|split].
  - exact (runs_fst _ _ _ _ _ s (getLatestSpaceXLaunch_runs w)).
  - exact (runs_fst _ _ _ _ _ s (getUpcomingSpaceXLaunches_runs w)).
  - exact (runs_fst _ _ _ _ _ s (getNasaAPOD_runs w)).
Qed.

Lemma X3_witness :
  process_env sorted_feed !! "N2YO_API_KEY" = None /\
  exists (s' : Effects),
    getSpaceContext sorted_feed fresh =
      (Normal (context_header +:+ LF +:+ "### Upcoming SpaceX Launches:" +:+ LF +:+
               "1. Sooner - 2030-01-01" +:+ LF +:+
               "2. Later - 2030-02-01" +:+ LF), s') /\
    length (requests s') = 3%nat.
Proof.
  split; [reflexivity|].
  destruct (X3_context_without_satellite_credential sorted_feed fresh eq_refl)
    as (s' & Hrun & Hreqs & _).
  exists s'. split.
  - rewrite Hrun. vm_compute. reflexivity.
  - rewrite Hreqs. reflexivity.
Defined.

(** ** The test script, run *)

Lemma gives_completes {A : Type} (m : M A) (w : World) (v : A) :
  gives m w v -> completes m w.
Proof. intros H s. destruct (H s) as (s' & Hrun & Hmore). eauto. Qed.

Lemma completes_ret {A : Type} (a : A) (w : World) : completes (ret a) w.
Proof. intros s. exists a, s. split; [reflexivity|]. exists []. now rewrite app_nil_r. Qed.

Lemma completes_log (msg : string) (w : World) : completes (console_log msg) w.
Proof. intros s. eexists _, _. split; [reflexivity|]. eexists. reflexivity. Qed.

Lemma completes_error (msg : string) (e : option JS.Error) (w : World) :
  completes (console_error msg e) w.
Proof. intros s. eexists _, _. split; [reflexivity|]. eexists. reflexivity. Qed.

Lemma completes_locale (d : string) (w : World) :
  completes (Date_toLocaleDateString d) w.
Proof. intros s. eexists _, s. split; [reflexivity|]. exists []. now rewrite app_nil_r. Qed.

Lemma completes_getenv (key : string) (w : World) : completes (getenv key) w.
Proof. intros s. eexists _, s. split; [reflexivity|]. exists []. now rewrite app_nil_r. Qed.

Lemma completes_bind {A B : Type} (m : M A) (f : A -> M B) (w : World) :
  completes m w -> (forall a, completes (f a) w) -> completes (bind m f) w.
Proof.
  intros Hm Hf s. destruct (Hm s) as (a & s1 & Hrun & more & Hmore).
  destruct (Hf a s1) as (b & s2 & Hrun' & more' & Hmore').
  exists b, s2. unfold bind. rewrite Hrun, Hrun'. split; [reflexivity|].
  exists (more ++ more'). now rewrite Hmore', Hmore, app_assoc.
Qed.

Lemma completes_after {A B : Type} (m : M A) (f : A -> M B) (w : World) (a : A) :
  gives m w a -> completes (f a) w -> completes (bind m f) w.
Proof.
  intros Hm Hf s. destruct (Hm s) as (s1 & Hrun & more & Hmore).
  destruct (Hf s1) as (b & s2 & Hrun' & more' & Hmore').
  exists b, s2. unfold bind. rewrite Hrun, Hrun'. split; [reflexivity|].
  exists (more ++ more'). now rewrite Hmore', Hmore, app_assoc.
Qed.

Lemma completes_forEach {A : Type} (f : A -> nat -> M unit) (w : World) (l : list A) :
  (forall x i, completes (f x i) w) -> forall i, completes (forEach f i l) w.
Proof.
  intros Hf. induction l as [|x rest IH]; intros i; simpl.
  - apply completes_ret.
  - apply completes_bind; [apply Hf | intros _; apply IH].
Qed.

Lemma left_by_grows (p : Provider) (w : World) (s : Effects) :
  exists more, console (left_by p w s) = console s ++ more.
Proof.
  unfold left_by. destruct (exchange_of p w) as [ex|]; cbn [console unconfigured].
  - destruct (cause ex); eexists; [reflexivity|]. symmetry. apply app_nil_r.
  - eexists. reflexivity.
Qed.

Lemma completes_call (p : Provider) (w : World) : completes (call p) w.
Proof.
  intros s. destruct (call_leaves p w s) as [v Hrun].
  exists v, (left_by p w s). split; [exact Hrun | apply left_by_grows].
Qed.

Lemma gives_call (p : Provider) (w : World) (v : Result p) wait reqs :
  runs (call p) w v wait reqs -> gives (call p) w v.
Proof.
  intros Hruns s. destruct (call_leaves p w s) as [v' Hrun].
  pose proof (runs_fst _ _ _ _ _ s Hruns) as Hv. rewrite Hrun in Hv.
  injection Hv as ->. exists (left_by p w s).
  split; [exact Hrun | apply left_by_grows].
Qed.

Lemma completes_both {A B : Type} (pa : M A) (pb : M B) (w : World) :
  completes pa w -> completes pb w -> completes (both pa pb) w.
Proof.
  intros Ha Hb s. unfold both.
  destruct (Ha {| clock := clock s; console := []; requests := [] |})
    as (a & ea & Hra & _).
  destruct (Hb {| clock := clock s; console := []; requests := [] |})
    as (b & eb & Hrb & _).
  rewrite Hra, Hrb. eexists _, _. split; [reflexivity|]. eexists. reflexivity.
Qed.

Lemma completes_summary (w : World) : completes getSpaceDataSummary w.
Proof.
  unfold getSpaceDataSummary, Promise_all5.
  apply completes_bind; [|intros [[[[? ?] ?] ?] ?]; apply completes_ret].
  apply completes_bind; [|intros (? & ? & ? & ? & ?); apply completes_ret].
  apply completes_both; [exact (completes_call ISSPosition w)|].
  apply completes_both; [exact (completes_call LatestSpaceXLaunch w)|].
  apply completes_both;
    [exact (completes_call (UpcomingSpaceXLaunches (Some 3%float)) w)|].
  apply completes_both; [exact (completes_call ISROSpacecrafts w)|].
  exact (completes_call NasaApod w).
Qed.

(** One step of a run that completes. *)
Ltac completes_step :=
  first
    [ apply completes_ret
    | apply completes_log
    | apply completes_error
    | apply completes_locale
    | apply completes_getenv
    | apply completes_summary
    | apply completes_forEach; intros
    | match goal with
      | |- completes getLatestSpaceXLaunch _ => exact (completes_call LatestSpaceXLaunch _)
      | |- completes (getUpcomingSpaceXLaunches ?l) _ =>
          exact (completes_call (UpcomingSpaceXLaunches l) _)
      | |- completes getSpaceXRockets _ => exact (completes_call SpaceXRockets _)
      | |- completes getISROSpacecrafts _ => exact (completes_call ISROSpacecrafts _)
      | |- completes getISROLaunchVehicles _ =>
          exact (completes_call ISROLaunchVehicles _)
      | |- completes getISROCentres _ => exact (completes_call ISROCentres _)
      | |- completes getNasaAPOD _ => exact (completes_call NasaApod _)
      | |- completes getISSPosition _ => exact (completes_call ISSPosition _)
      | |- completes (getSatellitesAbove ?a ?b ?c ?d) _ =>
          exact (completes_call (SatellitesAbove a b c d) _)
      | |- completes (match ?x with _ => _ end) _ => destruct x
      end
    | apply completes_bind; [|intros ?] ].

Ltac completes_all := repeat completes_step.

Lemma testSpaceXAPI_completes (w : World) : completes testSpaceXAPI w.
Proof. unfold testSpaceXAPI. completes_all. Qed.

Lemma testISROAPI_completes (w : World) : completes testISROAPI w.
Proof. unfold testISROAPI. completes_all. Qed.

Lemma testNASAAPI_completes (w : World) : completes testNASAAPI w.
Proof. unfold testNASAAPI. completes_all. Qed.

Lemma testAggregatedData_completes (w : World) : completes testAggregatedData w.
Proof. unfold testAggregatedData. completes_all. Qed.

Lemma divider_completes (w : World) : completes divider w.
Proof. apply completes_log. Qed.

Lemma throws_first {A B : Type} (m : M A) (f : A -> M B) (w : World) (e : JS.Error) :
  throws m w e -> throws (bind m f) w e.
Proof.
  intros Hm s. destruct (Hm s) as (s' & Hrun). exists s'.
  unfold bind. now rewrite Hrun.
Qed.

Lemma throws_later {A B : Type} (m : M A) (f : A -> M B) (w : World) (e : JS.Error) :
  completes m w -> (forall a, throws (f a) w e) -> throws (bind m f) w e.
Proof.
  intros Hm Hf s. destruct (Hm s) as (a & s1 & Hrun & _).
  destruct (Hf a s1) as (s2 & Hrun'). exists s2.
  unfold bind. now rewrite Hrun, Hrun'.
Qed.

Lemma throws_after {A B : Type} (m : M A) (f : A -> M B) (w : World)
    (a : A) (e : JS.Error) :
  gives m w a -> throws (f a) w e -> throws (bind m f) w e.
Proof.
  intros Hm Hf s. destruct (Hm s) as (s1 & Hrun & _).
  destruct (Hf s1) as (s2 & Hrun'). exists s2.
  unfold bind. now rewrite Hrun, Hrun'.
Qed.

Lemma finishes_later {A B : Type} (m : M A) (f : A -> M B) (w : World)
    (v : B) (msg : string) (d : option JS.Error) :
  completes m w -> (forall a, finishes (f a) w v msg d) ->
  finishes (bind m f) w v msg d.
Proof.
  intros Hm Hf s. destruct (Hm s) as (a & s1 & Hrun & _).
  destruct (Hf a s1) as (s2 & Hrun' & Hlast). exists s2.
  unfold bind. rewrite Hrun, Hrun'. auto.
Qed.

Lemma finishes_log {A : Type} (msg : string) (v : A) (w : World) :
  finishes (console_log msg ;; ret v) w v msg None.
Proof. intros s. eexists. split; [reflexivity|]. cbn [console clock]. apply last_snoc. Qed.

Lemma finishes_error {A : Type} (msg : string) (e : JS.Error) (v : A) (w : World) :
  finishes (console_error msg (Some e) ;; ret v) w v msg (Some e).
Proof. intros s. eexists. split; [reflexivity|]. cbn [console clock]. apply last_snoc. Qed.

Lemma finishes_try {A : Type} (body : M A) (handler : JS.Error -> M A) (w : World)
    (v : A) (msg : string) (d : option JS.Error) :
  finishes body w v msg d -> finishes (try_catch body handler) w v msg d.
Proof.
  intros Hb s. destruct (Hb s) as (s' & Hrun & Hlast). exists s'.
  unfold try_catch. rewrite Hrun. auto.
Qed.

Lemma finishes_catch {A : Type} (body : M A) (handler : JS.Error -> M A) (w : World)
    (e : JS.Error) (v : A) (msg : string) (d : option JS.Error) :
  throws body w e -> finishes (handler e) w v msg d ->
  finishes (try_catch body handler) w v msg d.
Proof.
  intros Hb Hh s. destruct (Hb s) as (s1 & Hrun).
  destruct (Hh s1) as (s2 & Hrun' & Hlast). exists s2.
  unfold try_catch. rewrite Hrun, Hrun'. auto.
Qed.

Lemma gives_getISSPosition (w : World) : gives getISSPosition w (iss_of w).
Proof. exact (gives_call ISSPosition w _ _ _ (getISSPosition_runs w)). Qed.

Lemma testN2YOAPI_completes (w : World) :
  valid_instant (iss_of w) = true -> completes testN2YOAPI w.
Proof.
  intros Hvalid. unfold testN2YOAPI.
  apply completes_bind; [apply completes_log | intros _].
  apply completes_bind; [apply completes_log | intros _].
  apply (completes_after _ _ w (iss_of w)); [apply gives_getISSPosition|].
  apply completes_bind; [|intros _; completes_all].
  unfold valid_instant in Hvalid. destruct (iss_of w) as [p|]; [|apply completes_log].
  destruct (JS.TimeClip (timestamp p * 1000)%float) as [t|]; [|discriminate].
  cbn [JS.toISOString lift]. completes_all.
Qed.

Lemma testN2YOAPI_throws (w : World) :
  valid_instant (iss_of w) = false ->
  throws testN2YOAPI w (JS.RangeError "Invalid time value").
Proof.
  intros Hvalid. unfold testN2YOAPI.
  apply throws_later; [apply completes_log | intros _].
  apply throws_later; [apply completes_log | intros _].
  apply (throws_after _ _ w (iss_of w)); [apply gives_getISSPosition|].
  apply throws_first.
  unfold valid_instant in Hvalid. destruct (iss_of w) as [p|]; [|discriminate].
  destruct (JS.TimeClip (timestamp p * 1000)%float) as [t|]; [discriminate|].
  cbn [JS.toISOString lift].
  do 3 (apply throws_later; [apply completes_log | intros _]).
  apply throws_first. intros s. exists s. reflexivity.
Qed.

Lemma main_preamble {A : Type} (rest : M A) (w : World) (v : A)
    (msg : string) (d : option JS.Error) :
  finishes rest w v msg d ->
  finishes
    (console_log (LF +:+ "🌟 ATHEY SPACE APIs TEST SUITE 🌟") ;;
     console_log ("================================" +:+ LF) ;;
     let* key := getenv "N2YO_API_KEY" in
     (if negb (truthy key) then
        console_log "⚠️  Warning: N2YO_API_KEY not found in environment" ;;
        console_log ("   Satellite tracking tests may fail." +:+ LF)
      else ret tt) ;;
     rest) w v msg d.
Proof.
  intros Hrest.
  apply finishes_later; [apply completes_log | intros _].
  apply finishes_later; [apply completes_log | intros _].
  apply finishes_later; [apply completes_getenv | intros key].
  apply finishes_later; [|intros _; exact Hrest].
  destruct (negb (truthy key)); completes_all.
Qed.

(** X13: the test script ends with "All tests completed!" whatever the
    services do - also when every request fails -, for the clients never
    throw; the only way for it to end with "Test failed:" and exit status
    1 is an ISS position whose instant is no valid date, which makes
    [toISOString] throw in the first test. *)
Theorem X13_test_script_outcome :
  forall (w : World) (s : Effects) (position : option SatellitePosition),
    fst (getISSPosition w s) = Normal position ->
    exists s' : Effects,
      main w s = (Normal (if valid_instant position then None else Some 1), s') /\
      last (console s') =
        Some {| logged_at := clock s';
                message :=
                  if valid_instant position
                  then LF +:+ "✅ All tests completed!" +:+ LF
                  else LF +:+ "❌ Test failed:";
                detail :=
                  if valid_instant position then None
                  else Some (JS.RangeError "Invalid time value") |}.
Proof.
  intros w s position Hiss.
  apply (runs_result _ _ _ _ _ _ _ (getISSPosition_runs w)) in Hiss. subst position.
  destruct (valid_instant (iss_of w)) eqn:Hvalid.
  - refine (main_preamble _ w None _ None _ s). apply finishes_try.
    apply finishes_later; [now apply testN2YOAPI_completes | intros _].
    apply finishes_later; [apply divider_completes | intros _].
    apply finishes_later; [apply testSpaceXAPI_completes | intros _].
    apply finishes_later; [apply divider_completes | intros _].
    apply finishes_later; [apply testISROAPI_completes | intros _].
    apply finishes_later; [apply divider_completes | intros _].
    apply finishes_later; [apply testNASAAPI_completes | intros _].
    apply finishes_later; [apply divider_completes | intros _].
    apply finishes_later; [apply testAggregatedData_completes | intros _].
    apply finishes_log.
  - refine (main_preamble _ w (Some 1) _ (Some _) _ s).
    apply finishes_catch with (e := JS.RangeError "Invalid time value").
    + apply throws_first. now apply testN2YOAPI_throws.
    + apply finishes_error.
Qed.

Lemma X13_witness :
  fst (getISSPosition offline fresh) = Normal None /\
  exists s' : Effects,
    main offline fresh = (Normal None, s') /\
    last (console s') =
      Some {| logged_at := clock s';
              message := LF +:+ "✅ All tests completed!" +:+ LF;
              detail := None |}.
Proof.
  split; [reflexivity|].
  exact (X13_test_script_outcome offline fresh None eq_refl).
Defined.

Lemma mentions_log (msg : string) (w : World) : mentions (console_log msg) w msg.
Proof.
  intros s. eexists _, _. split; [reflexivity|]. cbn [console].
  rewrite map_app. apply elem_of_app. right. simpl. apply list_elem_of_here.
Qed.

Lemma mentions_first {A B : Type} (m : M A) (f : A -> M B) (w : World) (msg : string) :
  mentions m w msg -> (forall a, completes (f a) w) -> mentions (bind m f) w msg.
Proof.
  intros Hm Hf s. destruct (Hm s) as (a & s1 & Hrun & Hin).
  destruct (Hf a s1) as (b & s2 & Hrun' & more & Hmore).
  exists b, s2. unfold bind. rewrite Hrun, Hrun'. split; [reflexivity|].
  rewrite Hmore, map_app. apply elem_of_app. now left.
Qed.

Lemma mentions_later {A B : Type} (m : M A) (f : A -> M B) (w : World) (msg : string) :
  completes m w -> (forall a, mentions (f a) w msg) -> mentions (bind m f) w msg.
Proof.
  intros Hm Hf s. destruct (Hm s) as (a & s1 & Hrun & _).
  destruct (Hf a s1) as (b & s2 & Hrun' & Hin).
  exists b, s2. unfold bind. rewrite Hrun, Hrun'. auto.
Qed.

Lemma mentions_after {A B : Type} (m : M A) (f : A -> M B) (w : World)
    (a : A) (msg : string) :
  gives m w a -> mentions (f a) w msg -> mentions (bind m f) w msg.
Proof.
  intros Hm Hf s. destruct (Hm s) as (s1 & Hrun & _).
  destruct (Hf s1) as (b & s2 & Hrun' & Hin).
  exists b, s2. unfold bind. rewrite Hrun, Hrun'. auto.
Qed.

(** X14: after the first spacecrafts the test of the agency's service
    prints "... and n more", where n is the number of spacecrafts
    returned minus five, also when fewer than five came back: with no
    spacecraft at all (the service is down, or its list is empty) the
    line reads "... and -5 more". *)
Theorem X14_remaining_spacecrafts_line :
  forall (w : World) (s : Effects) (crafts : list ISROSpacecraft),
    fst (getISROSpacecrafts w s) = Normal crafts ->
    exists s' : Effects,
      testISROAPI w s = (Normal tt, s') /\
      ("   ... and " +:+ integer_text (Z.of_nat (length crafts) - 5) +:+ " more")
        ∈ map message (console s') /\
      (crafts = [] -> "   ... and -5 more" ∈ map message (console s')).
Proof.
  intros w s crafts Hcrafts.
  apply (runs_result _ _ _ _ _ _ _ (getISROSpacecrafts_runs w)) in Hcrafts.
  subst crafts.
  assert (Hsays : mentions testISROAPI w
            ("   ... and " +:+
             integer_text (Z.of_nat (length (spacecrafts_of w)) - 5) +:+ " more")).
  { unfold testISROAPI.
    apply mentions_later; [apply completes_log | intros _].
    apply mentions_later; [apply completes_log | intros _].
    apply (mentions_after _ _ w (spacecrafts_of w)).
    { exact (gives_call ISROSpacecrafts w _ _ _ (getISROSpacecrafts_runs w)). }
    apply mentions_later; [completes_all | intros _].
    apply mentions_first; [apply mentions_log | intros _; completes_all]. }
  destruct (Hsays s) as ([] & s' & Hrun & Hin).
  exists s'. split; [exact Hrun|]. split; [exact Hin|].
  intros Hnone. rewrite Hnone in Hin. exact Hin.
Qed.

Lemma X14_witness :
  fst (getISROSpacecrafts offline fresh) = Normal [] /\
  exists s' : Effects,
    testISROAPI offline fresh = (Normal tt, s') /\
    "   ... and -5 more" ∈ map message (console s').
Proof.
  split; [reflexivity|].
  destruct (X14_remaining_spacecrafts_line offline fresh [] eq_refl)
    as (s' & Hrun & _ & Hdown).
  exists s'. split; [exact Hrun | exact (Hdown eq_refl)].
Defined.
